(** * The [tequilaTensor] class of the QTensor tutorial notebook

    A shallow embedding of the toy tensor class that the notebook builds in
    three steps (element access, addition, multiplication).  The embedding
    follows the last and most complete definition of the class.

    Python values are modelled as follows:
    - Python [int]s (indices, shape entries, loop counters) are [Z];
    - a Python list is a [list], indexed through [py_getitem], which
      implements negative indices and raises [IndexError] out of range;
    - a [for i in range(..)] loop is a monadic fold over [py_range];
    - a raised exception is the [Raise] alternative of [result]; only the
      class of the exception is recorded, not its message;
    - the entries of a tensor are values of a type with [+] and [*] that do
      not raise (numbers, tequila objectives).

    The other notebooks (Krylov method, circuit compiler, measurement
    grouping) call the tequila library and define no function of their
    own. *)

From Stdlib Require Import ZArith List Bool Lia.
Import ListNotations.
Local Open Scope Z_scope.

(** ** Exceptions and the error monad *)

Inductive exn : Type :=
| Exception        (* raise Exception(..) *)
| ValueError       (* raise ValueError(..) *)
| IndexError       (* list index out of range *)
| AttributeError   (* attribute lookup on an object that lacks it *)
| TypeError.       (* operand of an unsupported class *)

Inductive result (A : Type) : Type :=
| Ok (a : A)
| Raise (e : exn).

Arguments Ok {A} a.
Arguments Raise {A} e.

Definition bind {A B : Type} (m : result A) (k : A -> result B) : result B :=
  match m with
  | Ok a => k a
  | Raise e => Raise e
  end.

Declare Scope py_scope.
Delimit Scope py_scope with py.
Notation "x <- m ;; k" := (bind m (fun x => k))
  (at level 61, m at next level, right associativity) : py_scope.
Local Open Scope py_scope.

Definition raises {A : Type} (m : result A) : Prop :=
  exists e, m = Raise e.

Definition returns {A : Type} (m : result A) : Prop :=
  exists a, m = Ok a.

(** ** Python lists, [len], indexing, [range] and [for] *)

Definition len {A : Type} (l : list A) : Z := Z.of_nat (length l).

(** [l[i]]: a negative index counts from the end. *)
Definition py_getitem {A : Type} (l : list A) (i : Z) : result A :=
  let j := if i <? 0 then i + len l else i in
  if (j <? 0) || (len l <=? j) then Raise IndexError
  else match nth_error l (Z.to_nat j) with
       | Some x => Ok x
       | None => Raise IndexError
       end.

Fixpoint range_from (start : Z) (n : nat) : list Z :=
  match n with
  | O => []
  | S n' => start :: range_from (start + 1) n'
  end.

(** [range(start, stop)]; empty when [stop <= start]. *)
Definition py_range (start stop : Z) : list Z :=
  range_from start (Z.to_nat (stop - start)).

(** [for i in xs: s = body i s], stopping at the first exception. *)
Fixpoint for_in {St : Type} (xs : list Z) (body : Z -> St -> result St)
    (s : St) : result St :=
  match xs with
  | [] => Ok s
  | i :: xs' => s' <- body i s ;; for_in xs' body s'
  end.

(** [==] on lists of ints. *)
Fixpoint list_eqb (l1 l2 : list Z) : bool :=
  match l1, l2 with
  | [], [] => true
  | x :: l1', y :: l2' => (x =? y) && list_eqb l1' l2'
  | _, _ => false
  end.

(** ** Elements and numbers

    The entries of [objective_list] are numbers or tequila objectives: values
    that can be added to and multiplied with each other, and multiplied by a
    Python number.  The numeric tower distinguishes the three classes that
    [__mul__] tests with [isinstance]. *)

Inductive number (F C : Type) : Type :=
| PyInt (n : Z)
| PyFloat (x : F)
| PyComplex (z : C).

Arguments PyInt {F C} n.
Arguments PyFloat {F C} x.
Arguments PyComplex {F C} z.

Class Element (T F C : Type) : Type := {
  elem_add : T -> T -> T;             (* x + y *)
  elem_mul : T -> T -> T;             (* x * y *)
  elem_scale : T -> number F C -> T   (* x * c, c an int, float or complex *)
}.

Section TequilaTensor.

Context {T F C : Type} `{Element T F C}.

(** ** The class *)

Record tequilaTensor : Type := mkTensor {
  objective_list : list T;
  shape : list Z
}.

(** What the right operand of [+] and [*] can be. *)
Inductive pyobj : Type :=
| PyNum (c : number F C)
| PyTensor (t : tequilaTensor)
| PyOther.   (* any object without a [shape] attribute *)

Definition isinstance_float (o : pyobj) : bool :=
  match o with PyNum (PyFloat _) => true | _ => false end.
Definition isinstance_int (o : pyobj) : bool :=
  match o with PyNum (PyInt _) => true | _ => false end.
Definition isinstance_complex (o : pyobj) : bool :=
  match o with PyNum (PyComplex _) => true | _ => false end.

(** [other.shape] and [other.objective_list] *)
Definition getattr_shape (o : pyobj) : result (list Z) :=
  match o with
  | PyTensor t => Ok (shape t)
  | _ => Raise AttributeError
  end.

Definition getattr_objective_list (o : pyobj) : result (list T) :=
  match o with
  | PyTensor t => Ok (objective_list t)
  | _ => Raise AttributeError
  end.

(** [_prod(any_list, integer)]: the product of the entries after position
    [integer]. *)
Definition _prod (any_list : list Z) (integer : Z) : result Z :=
  for_in (py_range (integer + 1) (len any_list))
    (fun i prod => x <- py_getitem any_list i ;; Ok (prod * x))
    1.

(** The first loop of [access]: the bounds check. *)
Definition access_check (self : tequilaTensor) (idx : list Z) : result unit :=
  for_in (py_range 0 (len idx))
    (fun j _ =>
       ij <- py_getitem idx j ;;
       sj <- py_getitem (shape self) j ;;
       if ij >=? sj then Raise ValueError else Ok tt)
    tt.

(** The second loop of [access]: the value of [list_index] after it. *)
Definition access_list_index (self : tequilaTensor) (idx : list Z) : result Z :=
  for_in (py_range 0 (len idx))
    (fun i list_index =>
       if negb (i =? len idx - 1) then
         ii <- py_getitem idx i ;;
         p <- _prod (shape self) i ;;
         Ok (list_index + ii * p)
       else
         ii <- py_getitem idx i ;;
         Ok (list_index + (ii + 1)))
    0.

Definition access (self : tequilaTensor) (idx : list Z) : result T :=
  if negb (len idx =? len (shape self)) then Raise Exception
  else
    _ <- access_check self idx ;;
    list_index <- access_list_index self idx ;;
    py_getitem (objective_list self) (list_index - 1).

Definition __getitem__ (self : tequilaTensor) (item : list Z) : result T :=
  access self item.

Definition __add__ (self : tequilaTensor) (other : pyobj)
    : result tequilaTensor :=
  other_shape <- getattr_shape other ;;
  if negb (list_eqb (shape self) other_shape) then Raise Exception
  else
    added_list <-
      for_in (py_range 0 (len (objective_list self)))
        (fun i added_list =>
           a <- py_getitem (objective_list self) i ;;
           other_list <- getattr_objective_list other ;;
           b <- py_getitem other_list i ;;
           Ok (added_list ++ [elem_add a b]))
        [] ;;
    Ok (mkTensor added_list (shape self)).

(** The test [isinstance(other, float) or isinstance(other, int) or
    isinstance(other, complex)] of [__mul__]. *)
Definition is_scalar (other : pyobj) : bool :=
  isinstance_float other || isinstance_int other || isinstance_complex other.

(** [x * other] for an element [x] and a number [other]; [__mul__] evaluates
    it only after [is_scalar other] has held, so the last case is never
    reached from there. *)
Definition elem_mul_scalar (x : T) (other : pyobj) : result T :=
  match other with
  | PyNum c => Ok (elem_scale x c)
  | _ => Raise TypeError
  end.

Definition __mul__ (self : tequilaTensor) (other : pyobj)
    : result tequilaTensor :=
  if is_scalar other then
    multiplied_list <-
      for_in (py_range 0 (len (objective_list self)))
        (fun i multiplied_list =>
           a <- py_getitem (objective_list self) i ;;
           v <- elem_mul_scalar a other ;;
           Ok (multiplied_list ++ [v]))
        [] ;;
    Ok (mkTensor multiplied_list (shape self))
  else
    other_shape <- getattr_shape other ;;
    if negb (list_eqb (shape self) other_shape) then Raise Exception
    else
      multiplied_list <-
        for_in (py_range 0 (len (objective_list self)))
          (fun i multiplied_list =>
             a <- py_getitem (objective_list self) i ;;
             other_list <- getattr_objective_list other ;;
             b <- py_getitem other_list i ;;
             Ok (multiplied_list ++ [elem_mul a b]))
          [] ;;
      Ok (mkTensor multiplied_list (shape self)).

Definition __rmul__ (self : tequilaTensor) (other : pyobj)
    : result tequilaTensor :=
  __mul__ self other.

(** Python evaluates [c * A], for a number [c] and a tensor [A], by first
    calling the number's own [__mul__]; the built-in numeric classes answer
    [NotImplemented] for an operand of a class they do not know, and Python
    then calls the reflected method [A.__rmul__(c)].  [A * other] calls
    [A.__mul__(other)] at once. *)
Definition py_mul_left (c : number F C) (A : tequilaTensor)
    : result tequilaTensor :=
  __rmul__ A (PyNum c).

Definition py_mul_right (A : tequilaTensor) (other : pyobj)
    : result tequilaTensor :=
  __mul__ A other.

End TequilaTensor.

Arguments tequilaTensor T : clear implicits.
Arguments pyobj T F C : clear implicits.

(** ** Reference definitions used to state the properties *)

(** The product of the entries of a shape. *)
Definition list_prod (l : list Z) : Z := fold_right Z.mul 1 l.

Definition list_sum (l : list Z) : Z := fold_right Z.add 0 l.

(** Element-wise combination of two lists. *)
Fixpoint zip_with {X Y W : Type} (f : X -> Y -> W) (l1 : list X) (l2 : list Y)
    : list W :=
  match l1, l2 with
  | x :: l1', y :: l2' => f x y :: zip_with f l1' l2'
  | _, _ => []
  end.

(** The row-major flat index: the sum over [i] of
    [idx[i] * product(shape[i+1:])]. *)
Definition row_major_from (idx shp : list Z) (a n : nat) : Z :=
  list_sum (map (fun i => nth i idx 0 * list_prod (skipn (S i) shp))
                (seq a n)).

Definition row_major (idx shp : list Z) : Z :=
  row_major_from idx shp 0 (length idx).

(** The same index by recursion on the two lists. *)
Fixpoint flat_index (idx shp : list Z) : Z :=
  match idx, shp with
  | i :: idx', _ :: shp' => i * list_prod shp' + flat_index idx' shp'
  | _, _ => 0
  end.

(** Every component of [idx] lies within the matching extent of [shp]. *)
Definition in_bounds (idx shp : list Z) : Prop :=
  forall j i s, nth_error idx j = Some i -> nth_error shp j = Some s ->
                0 <= i < s.

(** Some component of [idx] reaches or exceeds its extent. *)
Definition overflows (idx shp : list Z) : Prop :=
  exists j i s, nth_error idx j = Some i /\ nth_error shp j = Some s /\
                i >= s.

(** The tensor respects its shape: as many entries as the shape has cells. *)
Definition well_shaped {T : Type} (A : tequilaTensor T) : Prop :=
  len (objective_list A) = list_prod (shape A).

(** ** Integer tensors, as in the notebook's first test *)

Module IntTensor.

#[export] Instance Element_Z : Element Z Empty_set Empty_set := {
  elem_add := Z.add;
  elem_mul := Z.mul;
  elem_scale x c :=
    match c with
    | PyInt n => x * n
    | PyFloat f => match f with end
    | PyComplex z => match z with end
    end
}.

Definition int (n : Z) : pyobj Z Empty_set Empty_set := PyNum (PyInt n).

(** [A = tequilaTensor(objective_list=[1,2,3,4,5,6,7,8], shape=[4,2])] *)
Definition A : tequilaTensor Z := mkTensor [1; 2; 3; 4; 5; 6; 7; 8] [4; 2].

(** [tequilaTensor(objective_list=[3,4], shape=[2])] *)
Definition B2 : tequilaTensor Z := mkTensor [3; 4] [2].

End IntTensor.

(** ** The notebook's loop over the cells of a matrix

    [[
    for i in range(A.shape[0]):
        print(end='\n')
        for j in range(A.shape[1]):
            print(A[i,j],end=' ')
    ]]
    What the loop writes is recorded as a list: a line break, or a cell
    (followed by a blank). *)

Inductive printed (T : Type) : Type :=
| Newline
| Cell (x : T).

Arguments Newline {T}.
Arguments Cell {T} x.

Definition print_matrix {T : Type} (A : tequilaTensor T)
    : result (list (printed T)) :=
  rows <- py_getitem (shape A) 0 ;;
  for_in (py_range 0 rows)
    (fun i out =>
       let out := out ++ [Newline] in
       cols <- py_getitem (shape A) 1 ;;
       for_in (py_range 0 cols)
         (fun j out => x <- __getitem__ A [i; j] ;; Ok (out ++ [Cell x]))
         out)
    [].

(** The cells among what was written, in order. *)
Fixpoint cells_of {T : Type} (out : list (printed T)) : list T :=
  match out with
  | [] => []
  | Newline :: out' => cells_of out'
  | Cell x :: out' => x :: cells_of out'
  end.

(** [rows] lines of [cols] cells each, taken from [l] in order. *)
Fixpoint matrix_layout {T : Type} (rows cols : nat) (l : list T)
    : list (printed T) :=
  match rows with
  | O => []
  | S rows' =>
      Newline :: map Cell (firstn cols l)
        ++ matrix_layout rows' cols (skipn cols l)
  end.

(** ** The covariance dictionary of the measurement notebook

    [prepare_cov_dict] walks over the pairs of terms of a Hamiltonian and
    stores a covariance for every commuting pair.  The terms and what the
    tequila library computes on them are external: [binary_tuple] is
    [term.binary_tuple()], [commute term1 term2] is
    [BinaryPauliString(term1.get_binary(), 1.0).commute(
       BinaryPauliString(term2.get_binary(), 1.0))] and [cov term1 term2] is
    the value of
    [wfn0.inner(prod_op(wfn0)) - wfn0.inner(op1(wfn0)) * wfn0.inner(op2(wfn0))].
    A Python dict is an association list in insertion order; assigning to a
    key that is present replaces its value in place. *)

Section PrepareCovDict.

Context {Term Key V : Type}.
Variable key_eq_dec : forall a b : Key, {a = b} + {a <> b}.
Variable binary_tuple : Term -> Key.
Variable commute : Term -> Term -> bool.
Variable cov : Term -> Term -> V.

Definition pair_eq_dec (a b : Key * Key) : {a = b} + {a <> b}.
Proof. decide equality. Defined.

(** [d.get(k)] *)
Fixpoint dict_get (d : list (Key * Key * V)) (k : Key * Key) : option V :=
  match d with
  | [] => None
  | (k', v) :: d' => if pair_eq_dec k k' then Some v else dict_get d' k
  end.

(** [d[k] = v] *)
Fixpoint dict_set (d : list (Key * Key * V)) (k : Key * Key) (v : V)
    : list (Key * Key * V) :=
  match d with
  | [] => [(k, v)]
  | (k', v') :: d' =>
      if pair_eq_dec k k' then (k, v) :: d' else (k', v') :: dict_set d' k v
  end.

(** [enumerate(l)], counting from [n] *)
Fixpoint enumerate_from {X : Type} (n : nat) (l : list X) : list (nat * X) :=
  match l with
  | [] => []
  | x :: l' => (n, x) :: enumerate_from (S n) l'
  end.

(** [for x in xs: s = body x s] *)
Fixpoint for_each {X St : Type} (xs : list X) (body : X -> St -> St) (s : St)
    : St :=
  match xs with
  | [] => s
  | x :: xs' => for_each xs' body (body x s)
  end.

Definition prepare_cov_dict (terms : list Term) : list (Key * Key * V) :=
  for_each (enumerate_from 0 terms)
    (fun '(idx, term1) cov_dict =>
       for_each (skipn idx terms)
         (fun term2 cov_dict =>
            if commute term1 term2 then
              dict_set cov_dict (binary_tuple term1, binary_tuple term2)
                (cov term1 term2)
            else cov_dict)
         cov_dict)
    [].

(** The assignments of one pass of the inner loop, and of the whole
    function, in the order they are made. *)
Definition row_entries (term1 : Term) (ts : list Term)
    : list (Key * Key * V) :=
  map (fun term2 =>
         ((binary_tuple term1, binary_tuple term2), cov term1 term2))
      (filter (commute term1) ts).

Fixpoint cov_entries (ts : list Term) : list (Key * Key * V) :=
  match ts with
  | [] => []
  | t :: ts' => row_entries t (t :: ts') ++ cov_entries ts'
  end.

Definition set_entry (d : list (Key * Key * V)) (e : Key * Key * V)
    : list (Key * Key * V) :=
  dict_set d (fst e) (snd e).

End PrepareCovDict.

(** * Properties *)

(** ** Lists, indexing and ranges *)

Lemma py_getitem_nth_error {X : Type} (l : list X) (n : nat) (x : X) :
  nth_error l n = Some x -> py_getitem l (Z.of_nat n) = Ok x.
Proof.
  intros Hn.
  assert (Hlt : (n < length l)%nat)
    by (apply nth_error_Some; rewrite Hn; discriminate).
  unfold py_getitem, len.
  destruct (Z.ltb_spec (Z.of_nat n) 0) as [Hneg | _]; [lia |].
  destruct (Z.ltb_spec (Z.of_nat n) 0) as [Hneg | _]; [lia |].
  destruct (Z.leb_spec (Z.of_nat (length l)) (Z.of_nat n)) as [Hge | _];
    [lia |].
  cbn. rewrite Nat2Z.id, Hn. reflexivity.
Qed.

Lemma nth_error_defined {X : Type} (l : list X) (n : nat) :
  (n < length l)%nat -> exists x, nth_error l n = Some x.
Proof.
  intros Hlt. destruct (nth_error l n) as [x |] eqn:E.
  - now exists x.
  - apply nth_error_None in E. lia.
Qed.

Lemma skipn_cons_nth_error {X : Type} (l : list X) (n : nat) (x : X) :
  nth_error l n = Some x -> skipn n l = x :: skipn (S n) l.
Proof.
  revert l. induction n as [| n IH]; intros [| y l] Hn; try discriminate.
  - injection Hn as ->. reflexivity.
  - cbn in Hn. apply IH in Hn. exact Hn.
Qed.

Lemma skipn_past {X : Type} (l : list X) (n : nat) :
  (length l <= n)%nat -> skipn n l = [].
Proof. intros Hle. now apply skipn_all2. Qed.

Lemma py_range_from_nat (a : nat) (stop : Z) :
  py_range (Z.of_nat a) stop = range_from (Z.of_nat a) (Z.to_nat stop - a).
Proof. unfold py_range. f_equal. lia. Qed.

Lemma py_range_len {X : Type} (l : list X) :
  py_range 0 (len l) = range_from (Z.of_nat 0) (length l).
Proof. unfold py_range, len. cbn [Z.of_nat]. f_equal. lia. Qed.

Lemma list_eqb_eq (l1 l2 : list Z) : list_eqb l1 l2 = true <-> l1 = l2.
Proof.
  revert l2. induction l1 as [| x l1 IH]; intros [| y l2]; cbn;
    try (split; [discriminate | discriminate]); try tauto.
  rewrite andb_true_iff, Z.eqb_eq, IH. split.
  - intros [-> ->]. reflexivity.
  - intros Heq. injection Heq as -> ->. split; reflexivity.
Qed.

Lemma list_eqb_neq (l1 l2 : list Z) : list_eqb l1 l2 = false <-> l1 <> l2.
Proof.
  rewrite <- list_eqb_eq. destruct (list_eqb l1 l2); split;
    congruence.
Qed.

(** ** The loops of the class *)

Section Loops.

Context {X Y W : Type}.

(** The loop of [__add__] and of the tensor branch of [__mul__]. *)
Lemma for_in_zip (f : X -> Y -> W) (la : list X) (lb : list Y) :
  forall (n a : nat) (acc : list W),
    (a + n <= length la)%nat -> (a + n <= length lb)%nat ->
    for_in (range_from (Z.of_nat a) n)
      (fun i acc =>
         x <- py_getitem la i ;; y <- py_getitem lb i ;; Ok (acc ++ [f x y]))
      acc
    = Ok (acc ++ zip_with f (firstn n (skipn a la)) (firstn n (skipn a lb))).
Proof.
  induction n as [| n IH]; intros a acc Ha Hb.
  - cbn. now rewrite app_nil_r.
  - destruct (nth_error_defined la a) as [x Hx]; [lia |].
    destruct (nth_error_defined lb a) as [y Hy]; [lia |].
    cbn [range_from for_in].
    rewrite (py_getitem_nth_error _ _ _ Hx), (py_getitem_nth_error _ _ _ Hy).
    cbn [bind].
    replace (Z.of_nat a + 1) with (Z.of_nat (S a)) by lia.
    rewrite IH by lia.
    rewrite (skipn_cons_nth_error _ _ _ Hx), (skipn_cons_nth_error _ _ _ Hy).
    cbn [firstn zip_with]. now rewrite <- app_assoc.
Qed.

(** The loop of the scalar branch of [__mul__]. *)
Lemma for_in_map (g : X -> W) (la : list X) :
  forall (n a : nat) (acc : list W),
    (a + n <= length la)%nat ->
    for_in (range_from (Z.of_nat a) n)
      (fun i acc => x <- py_getitem la i ;; Ok (acc ++ [g x]))
      acc
    = Ok (acc ++ map g (firstn n (skipn a la))).
Proof.
  induction n as [| n IH]; intros a acc Ha.
  - cbn. now rewrite app_nil_r.
  - destruct (nth_error_defined la a) as [x Hx]; [lia |].
    cbn [range_from for_in].
    rewrite (py_getitem_nth_error _ _ _ Hx). cbn [bind].
    replace (Z.of_nat a + 1) with (Z.of_nat (S a)) by lia.
    rewrite IH by lia.
    rewrite (skipn_cons_nth_error _ _ _ Hx).
    cbn [firstn map]. now rewrite <- app_assoc.
Qed.

Lemma zip_with_length (f : X -> Y -> W) (la : list X) (lb : list Y) :
  length la = length lb -> length (zip_with f la lb) = length la.
Proof.
  revert lb. induction la as [| x la IH]; intros [| y lb] Hlen;
    cbn in *; try discriminate; [reflexivity |].
  f_equal. apply IH. lia.
Qed.

Lemma zip_with_nth_error (f : X -> Y -> W) (la : list X) (lb : list Y) :
  forall (i : nat) (x : X) (y : Y),
    nth_error la i = Some x -> nth_error lb i = Some y ->
    nth_error (zip_with f la lb) i = Some (f x y).
Proof.
  revert lb. induction la as [| x0 la IH]; intros [| y0 lb] [| i] x y Hx Hy;
    cbn in *; try discriminate.
  - now injection Hx as ->; injection Hy as ->.
  - now apply IH.
Qed.

End Loops.

(** The loop of [_prod]. *)
Lemma for_in_prod (l : list Z) :
  forall (n a : nat) (acc : Z),
    (a + n = length l)%nat ->
    for_in (range_from (Z.of_nat a) n)
      (fun i prod => x <- py_getitem l i ;; Ok (prod * x))
      acc
    = Ok (acc * list_prod (skipn a l)).
Proof.
  induction n as [| n IH]; intros a acc Ha.
  - cbn. rewrite skipn_past by lia. cbn. apply (f_equal Ok). lia.
  - destruct (nth_error_defined l a) as [x Hx]; [lia |].
    cbn [range_from for_in].
    rewrite (py_getitem_nth_error _ _ _ Hx). cbn [bind].
    replace (Z.of_nat a + 1) with (Z.of_nat (S a)) by lia.
    rewrite IH by lia.
    rewrite (skipn_cons_nth_error _ _ _ Hx).
    apply (f_equal Ok). unfold list_prod. cbn [fold_right]. ring.
Qed.

Section TensorFacts.

Context {T F C : Type} `{Element T F C}.

Lemma _prod_spec (l : list Z) (a : nat) :
  _prod l (Z.of_nat a) = Ok (list_prod (skipn (S a) l)).
Proof.
  unfold _prod.
  replace (Z.of_nat a + 1) with (Z.of_nat (S a)) by lia.
  rewrite py_range_from_nat. unfold len. rewrite Nat2Z.id.
  destruct (Nat.le_gt_cases (S a) (length l)) as [Hle | Hgt].
  - rewrite for_in_prod by lia. f_equal. lia.
  - replace (length l - S a)%nat with 0%nat by lia.
    rewrite skipn_past by lia. reflexivity.
Qed.

End TensorFacts.

(** ** The two loops of [access] *)

Lemma geb_false_lt (x s : Z) : x < s -> (x >=? s) = false.
Proof. intros Hlt. rewrite Z.geb_leb. now apply Z.leb_gt. Qed.

Lemma geb_true_ge (x s : Z) : x >= s -> (x >=? s) = true.
Proof. intros Hge. rewrite Z.geb_leb. apply Z.leb_le. lia. Qed.

(** The bounds check passes when every component is below its extent;
    nothing is asked of the components from below. *)
Lemma check_loop_ok (idx shp : list Z) :
  forall (n a : nat),
    (a + n = length idx)%nat -> length idx = length shp ->
    (forall j i s, (a <= j)%nat ->
       nth_error idx j = Some i -> nth_error shp j = Some s -> i < s) ->
    for_in (range_from (Z.of_nat a) n)
      (fun j _ =>
         ij <- py_getitem idx j ;;
         sj <- py_getitem shp j ;;
         if ij >=? sj then Raise ValueError else Ok tt)
      tt
    = Ok tt.
Proof.
  induction n as [| n IH]; intros a Ha Hlen Hlt; [reflexivity |].
  destruct (nth_error_defined idx a) as [x Hx]; [lia |].
  destruct (nth_error_defined shp a) as [s Hs]; [lia |].
  cbn [range_from for_in].
  rewrite (py_getitem_nth_error _ _ _ Hx), (py_getitem_nth_error _ _ _ Hs).
  cbn [bind].
  rewrite (geb_false_lt x s) by (apply (Hlt a); auto).
  replace (Z.of_nat a + 1) with (Z.of_nat (S a)) by lia.
  apply IH; [lia | assumption |].
  intros j i s' Hj. apply Hlt. lia.
Qed.

(** The bounds check raises [ValueError] as soon as one component reaches
    its extent. *)
Lemma check_loop_raise (idx shp : list Z) :
  forall (n a : nat),
    (a + n = length idx)%nat -> length idx = length shp ->
    (exists j i s, (a <= j)%nat /\
       nth_error idx j = Some i /\ nth_error shp j = Some s /\ i >= s) ->
    for_in (range_from (Z.of_nat a) n)
      (fun j _ =>
         ij <- py_getitem idx j ;;
         sj <- py_getitem shp j ;;
         if ij >=? sj then Raise ValueError else Ok tt)
      tt
    = Raise ValueError.
Proof.
  induction n as [| n IH]; intros a Ha Hlen (j & i & s & Hj & Hi & Hs & Hge).
  - assert (j < length idx)%nat
      by (apply nth_error_Some; rewrite Hi; discriminate).
    lia.
  - destruct (nth_error_defined idx a) as [x Hx]; [lia |].
    destruct (nth_error_defined shp a) as [s0 Hs0]; [lia |].
    cbn [range_from for_in].
    rewrite (py_getitem_nth_error _ _ _ Hx), (py_getitem_nth_error _ _ _ Hs0).
    cbn [bind].
    destruct (x >=? s0) eqn:Ecmp; [reflexivity |].
    replace (Z.of_nat a + 1) with (Z.of_nat (S a)) by lia.
    apply IH; [lia | assumption |].
    exists j, i, s. repeat split; try assumption.
    destruct (Nat.eq_dec j a) as [-> | Hne]; [| lia].
    rewrite Hx in Hi. rewrite Hs0 in Hs.
    injection Hi as ->. injection Hs as ->.
    rewrite geb_true_ge in Ecmp by assumption. discriminate.
Qed.

Lemma row_major_from_step (idx shp : list Z) (a n : nat) :
  row_major_from idx shp a (S n)
  = nth a idx 0 * list_prod (skipn (S a) shp)
    + row_major_from idx shp (S a) n.
Proof. reflexivity. Qed.

(** The index loop: [list_index] ends one above the row-major index (the
    last component is added with [+ 1]), unless the loop body never ran. *)
Lemma index_loop (idx shp : list Z) :
  forall (n a : nat) (acc : Z),
    (a + n = length idx)%nat -> length idx = length shp ->
    for_in (range_from (Z.of_nat a) n)
      (fun i list_index =>
         if negb (i =? len idx - 1) then
           ii <- py_getitem idx i ;;
           p <- _prod shp i ;;
           Ok (list_index + ii * p)
         else
           ii <- py_getitem idx i ;;
           Ok (list_index + (ii + 1)))
      acc
    = Ok (acc + row_major_from idx shp a n
          + match n with O => 0 | S _ => 1 end).
Proof.
  induction n as [| n IH]; intros a acc Ha Hlen.
  - cbn. apply (f_equal Ok). lia.
  - destruct (nth_error_defined idx a) as [x Hx]; [lia |].
    rewrite row_major_from_step, (nth_error_nth _ _ 0 Hx).
    cbn [range_from for_in].
    rewrite (py_getitem_nth_error _ _ _ Hx).
    destruct (Z.eqb_spec (Z.of_nat a) (len idx - 1)) as [Elast | Enot];
      cbn [negb bind]; unfold len in *.
    + assert (n = 0%nat) by lia. subst n.
      rewrite skipn_past by lia. cbn. apply (f_equal Ok). lia.
    + rewrite _prod_spec. cbn [bind].
      replace (Z.of_nat a + 1) with (Z.of_nat (S a)) by lia.
      rewrite IH by lia.
      destruct n as [| n]; [lia |]. apply (f_equal Ok). lia.
Qed.

Lemma row_major_cons (i s : Z) (idx shp : list Z) :
  row_major (i :: idx) (s :: shp) = i * list_prod shp + row_major idx shp.
Proof.
  unfold row_major. cbn [length]. rewrite row_major_from_step.
  cbn [nth skipn]. f_equal.
  unfold row_major_from. rewrite <- seq_shift, map_map. reflexivity.
Qed.

Lemma row_major_flat_index (idx shp : list Z) :
  length idx = length shp -> row_major idx shp = flat_index idx shp.
Proof.
  revert shp. induction idx as [| i idx IH]; intros [| s shp] Hlen;
    cbn in Hlen; try discriminate; [reflexivity |].
  rewrite row_major_cons. cbn [flat_index]. rewrite IH by lia. reflexivity.
Qed.

Lemma in_bounds_cons (i s : Z) (idx shp : list Z) :
  in_bounds (i :: idx) (s :: shp) -> 0 <= i < s /\ in_bounds idx shp.
Proof.
  intros Hb. split.
  - apply (Hb 0%nat); reflexivity.
  - intros j x y Hx Hy. apply (Hb (S j)); assumption.
Qed.

(** Within bounds the row-major index addresses a cell of the tensor. *)
Lemma flat_index_bounds (idx shp : list Z) :
  length idx = length shp -> in_bounds idx shp ->
  0 <= flat_index idx shp < list_prod shp.
Proof.
  revert shp. induction idx as [| i idx IH]; intros [| s shp] Hlen Hb;
    cbn in Hlen; try discriminate.
  - cbn. lia.
  - apply in_bounds_cons in Hb as [Hi Hb].
    specialize (IH shp ltac:(lia) Hb).
    cbn [flat_index]. unfold list_prod in *. cbn [fold_right]. nia.
Qed.

Section AccessFacts.

Context {T F C : Type} `{Element T F C}.

Lemma access_check_ok (self : tequilaTensor T) (idx : list Z) :
  length idx = length (shape self) ->
  (forall j i s, nth_error idx j = Some i ->
     nth_error (shape self) j = Some s -> i < s) ->
  access_check self idx = Ok tt.
Proof.
  intros Hlen Hlt. unfold access_check. rewrite py_range_len.
  apply check_loop_ok; [reflexivity | assumption |].
  intros j i s _. apply Hlt.
Qed.

Lemma access_check_raise (self : tequilaTensor T) (idx : list Z) :
  length idx = length (shape self) ->
  overflows idx (shape self) ->
  access_check self idx = Raise ValueError.
Proof.
  intros Hlen (j & i & s & Hi & Hs & Hge). unfold access_check.
  rewrite py_range_len.
  apply check_loop_raise; [reflexivity | assumption |].
  exists j, i, s. repeat split; try assumption. lia.
Qed.

Lemma access_list_index_spec (self : tequilaTensor T) (idx : list Z) :
  length idx = length (shape self) ->
  access_list_index self idx
  = Ok (row_major idx (shape self)
        + match idx with [] => 0 | _ :: _ => 1 end).
Proof.
  intros Hlen. unfold access_list_index. rewrite py_range_len.
  rewrite index_loop by (auto with arith). unfold row_major.
  destruct idx; reflexivity.
Qed.

Lemma len_eqb_length {X Y : Type} (l1 : list X) (l2 : list Y) :
  (len l1 =? len l2) = true <-> length l1 = length l2.
Proof. unfold len. rewrite Z.eqb_eq. lia. Qed.

(** Within bounds [access] returns the cell at the row-major index. *)
Lemma access_in_bounds (self : tequilaTensor T) (idx : list Z) :
  well_shaped self ->
  length idx = length (shape self) ->
  in_bounds idx (shape self) ->
  0 <= row_major idx (shape self) < len (objective_list self) /\
  access self idx
  = py_getitem (objective_list self) (row_major idx (shape self)) /\
  exists x,
    nth_error (objective_list self)
      (Z.to_nat (row_major idx (shape self))) = Some x /\
    access self idx = Ok x.
Proof.
  intros Hws Hlen Hb. unfold well_shaped in Hws.
  pose proof (flat_index_bounds idx (shape self) Hlen Hb) as Hk.
  rewrite <- row_major_flat_index in Hk by assumption.
  rewrite <- Hws in Hk.
  set (k := row_major idx (shape self)) in *.
  destruct (nth_error_defined (objective_list self) (Z.to_nat k))
    as [x Hx]; [unfold len in Hk; lia |].
  assert (Hget : py_getitem (objective_list self) k = Ok x).
  { rewrite <- (Z2Nat.id k) by lia. now apply py_getitem_nth_error. }
  assert (Hacc : access self idx = Ok x).
  { unfold access.
    rewrite (proj2 (len_eqb_length idx (shape self)) Hlen). cbn [negb].
    rewrite access_check_ok;
      [| assumption | intros j i s Hi Hs; apply (Hb j i s Hi Hs)].
    rewrite access_list_index_spec by assumption. cbn [bind]. fold k.
    destruct idx as [| i idx].
    - destruct (shape self) as [| s shp] eqn:Eshape; [| discriminate].
      subst k. unfold row_major in *. cbn in Hx, Hws |- *.
      unfold len in Hws. cbn in Hws.
      destruct (objective_list self) as [| y [| z l]]; cbn in Hws; try lia.
      cbn in Hx. injection Hx as ->. reflexivity.
    - replace (k + 1 - 1) with k by lia. exact Hget. }
  split; [exact Hk |]. split; [now rewrite Hacc, Hget |].
  exists x. split; assumption.
Qed.

End AccessFacts.

(** ** Addition and multiplication *)

Section Arithmetic.

Context {T F C : Type} `{Element T F C}.

Lemma is_scalar_number (c : number F C) :
  is_scalar (PyNum c : pyobj T F C) = true.
Proof. destruct c; reflexivity. Qed.

Lemma is_scalar_tensor (B : tequilaTensor T) :
  is_scalar (PyTensor B : pyobj T F C) = false.
Proof. reflexivity. Qed.

Lemma well_shaped_same_length (A B : tequilaTensor T) :
  well_shaped A -> well_shaped B -> shape A = shape B ->
  length (objective_list A) = length (objective_list B).
Proof.
  unfold well_shaped, len. intros HA HB Hsh. rewrite Hsh in HA. lia.
Qed.

(** The element-wise loop over two lists of the same length. *)
Lemma elementwise_loop (f : T -> T -> T) (la lb : list T) :
  length la = length lb ->
  for_in (py_range 0 (len la))
    (fun i acc =>
       x <- py_getitem la i ;; y <- py_getitem lb i ;; Ok (acc ++ [f x y]))
    []
  = Ok (zip_with f la lb).
Proof.
  intros Hlen. rewrite py_range_len, for_in_zip by (cbn; lia).
  cbn [skipn app]. rewrite Hlen at 2. now rewrite !firstn_all.
Qed.

Lemma scalar_loop (g : T -> T) (la : list T) :
  for_in (py_range 0 (len la))
    (fun i acc => x <- py_getitem la i ;; Ok (acc ++ [g x]))
    []
  = Ok (map g la).
Proof.
  rewrite py_range_len, for_in_map by (cbn; lia).
  cbn [skipn app]. now rewrite firstn_all.
Qed.

Lemma add_same_shape (A B : tequilaTensor T) :
  well_shaped A -> well_shaped B -> shape A = shape B ->
  __add__ A (PyTensor B)
  = Ok (mkTensor (zip_with elem_add (objective_list A) (objective_list B))
                 (shape A)).
Proof.
  intros HA HB Hsh. unfold __add__. cbn [getattr_shape bind].
  rewrite (proj2 (list_eqb_eq _ _) Hsh). cbn [negb].
  pose proof (elementwise_loop elem_add _ _
                (well_shaped_same_length A B HA HB Hsh)) as Hloop.
  cbn [getattr_objective_list bind] in Hloop |- *.
  rewrite Hloop. reflexivity.
Qed.

Lemma add_other_shape (A B : tequilaTensor T) :
  shape A <> shape B -> __add__ A (PyTensor B) = Raise Exception.
Proof.
  intros Hsh. unfold __add__. cbn [getattr_shape bind].
  now rewrite (proj2 (list_eqb_neq _ _) Hsh).
Qed.

Lemma mul_scalar (A : tequilaTensor T) (c : number F C) :
  __mul__ A (PyNum c)
  = Ok (mkTensor (map (fun x => elem_scale x c) (objective_list A))
                 (shape A)).
Proof.
  unfold __mul__. rewrite is_scalar_number.
  pose proof (scalar_loop (fun x => elem_scale x c) (objective_list A))
    as Hloop.
  cbn [elem_mul_scalar bind] in Hloop |- *.
  rewrite Hloop. reflexivity.
Qed.

Lemma mul_same_shape (A B : tequilaTensor T) :
  well_shaped A -> well_shaped B -> shape A = shape B ->
  __mul__ A (PyTensor B)
  = Ok (mkTensor (zip_with elem_mul (objective_list A) (objective_list B))
                 (shape A)).
Proof.
  intros HA HB Hsh. unfold __mul__. rewrite is_scalar_tensor.
  cbn [getattr_shape bind].
  rewrite (proj2 (list_eqb_eq _ _) Hsh). cbn [negb].
  pose proof (elementwise_loop elem_mul _ _
                (well_shaped_same_length A B HA HB Hsh)) as Hloop.
  cbn [getattr_objective_list bind] in Hloop |- *.
  rewrite Hloop. reflexivity.
Qed.

Lemma mul_other_shape (A B : tequilaTensor T) :
  shape A <> shape B -> __mul__ A (PyTensor B) = Raise Exception.
Proof.
  intros Hsh. unfold __mul__. rewrite is_scalar_tensor.
  cbn [getattr_shape bind].
  now rewrite (proj2 (list_eqb_neq _ _) Hsh).
Qed.

End Arithmetic.

(** ** The bounds check decides overflow only *)

Lemma overflow_dec (idx shp : list Z) :
  (forall j i s, nth_error idx j = Some i -> nth_error shp j = Some s ->
                 i < s)
  \/ overflows idx shp.
Proof.
  revert shp. induction idx as [| x idx IH]; intros shp.
  - left. intros [| j] i s Hi; discriminate.
  - destruct shp as [| y shp].
    + left. intros [| j] i s _ Hs; discriminate.
    + destruct (Z_lt_ge_dec x y) as [Hlt | Hge].
      * destruct (IH shp) as [Hall | (j & i & s & Hi & Hs & Hge)].
        -- left. intros [| j] i s Hi Hs; cbn in Hi, Hs.
           ++ injection Hi as <-. injection Hs as <-. exact Hlt.
           ++ exact (Hall j i s Hi Hs).
        -- right. exists (S j), i, s. auto.
      * right. exists 0%nat, x, y. auto.
Qed.

(** Closed bounds goals over literal lists. *)
Ltac literal_bounds :=
  let j := fresh "j" in
  intros j;
  repeat (destruct j as [| j];
          [ cbn; intros;
            repeat match goal with
                   | E : Some _ = Some _ |- _ => injection E as <-
                   end; lia
          | ]);
  cbn; intros; destruct j; discriminate.

(** * The claims *)

Section Claims.

Context {T F C : Type} `{Element T F C}.

(** C1. For tensors A and B whose [objective_list] has as many entries as
    the product of the shape, [A + B] raises exactly when the shapes differ;
    when the shapes agree it returns a tensor with the shape of A whose
    entries are the sums [A.objective_list[i] + B.objective_list[i]]. *)
Theorem add_raises_iff_shapes_differ (A B : tequilaTensor T) :
  well_shaped A -> well_shaped B ->
  (raises (__add__ A (PyTensor B)) <-> shape A <> shape B) /\
  (shape A = shape B ->
   exists R,
     __add__ A (PyTensor B) = Ok R /\
     shape R = shape A /\
     length (objective_list R) = length (objective_list A) /\
     forall i a b,
       nth_error (objective_list A) i = Some a ->
       nth_error (objective_list B) i = Some b ->
       nth_error (objective_list R) i = Some (elem_add a b)).
Proof.
  intros HA HB. split.
  - split.
    + intros [e He] Hsh. rewrite add_same_shape in He by assumption.
      discriminate.
    + intros Hsh. exists Exception. now apply add_other_shape.
  - intros Hsh. eexists. split; [now apply add_same_shape |].
    cbn [shape objective_list]. split; [reflexivity |]. split.
    + apply zip_with_length. now apply well_shaped_same_length.
    + intros i a b. apply zip_with_nth_error.
Qed.

(** C2. [access(idx)] raises when [idx] and the shape differ in length;
    it raises [ValueError] when the lengths agree and some component reaches
    its extent; it returns an element when the lengths agree and every
    component lies in [0, shape[j]); [A[idx]] is [A.access(idx)]. *)
Theorem access_raises_or_returns (A : tequilaTensor T) (idx : list Z) :
  well_shaped A ->
  (length idx <> length (shape A) ->
   access A idx = Raise Exception /\ raises (access A idx)) /\
  (length idx = length (shape A) -> overflows idx (shape A) ->
   access A idx = Raise ValueError) /\
  (length idx = length (shape A) -> in_bounds idx (shape A) ->
   returns (access A idx)) /\
  __getitem__ A idx = access A idx.
Proof.
  intros HA. repeat split.
  - unfold access.
    destruct (len idx =? len (shape A)) eqn:E; [| reflexivity].
    apply len_eqb_length in E. contradiction.
  - exists Exception. unfold access.
    destruct (len idx =? len (shape A)) eqn:E; [| reflexivity].
    apply len_eqb_length in E. contradiction.
  - intros Hlen Hov. unfold access.
    rewrite (proj2 (len_eqb_length idx (shape A)) Hlen). cbn [negb].
    now rewrite access_check_raise.
  - intros Hlen Hb.
    destruct (access_in_bounds A idx HA Hlen Hb) as (_ & _ & x & _ & Hx).
    now exists x.
Qed.

(** C3. [A * c] for a number [c] (int, float or complex) returns the tensor
    of the shape of A with entries [x * c]; [A * B] for a tensor B of
    another shape raises; for a tensor B of the same shape (both lists as
    long as the product of the shape) it returns the element-wise product. *)
Theorem mul_scalar_or_elementwise (A : tequilaTensor T) :
  (forall c : number F C,
     __mul__ A (PyNum c)
     = Ok (mkTensor (map (fun x => elem_scale x c) (objective_list A))
                    (shape A))) /\
  (forall B : tequilaTensor T,
     shape B <> shape A -> raises (__mul__ A (PyTensor B : pyobj T F C))) /\
  (forall B : tequilaTensor T,
     shape B = shape A -> well_shaped A -> well_shaped B ->
     exists R,
       __mul__ A (PyTensor B : pyobj T F C) = Ok R /\
       shape R = shape A /\
       length (objective_list R) = length (objective_list A) /\
       forall i a b,
         nth_error (objective_list A) i = Some a ->
         nth_error (objective_list B) i = Some b ->
         nth_error (objective_list R) i = Some (elem_mul a b)).
Proof.
  split; [| split].
  - intros c. apply mul_scalar.
  - intros B Hsh. exists Exception. apply mul_other_shape. congruence.
  - intros B Hsh HA HB. symmetry in Hsh.
    eexists. split; [now apply mul_same_shape |].
    cbn [shape objective_list]. split; [reflexivity |]. split.
    + apply zip_with_length. now apply well_shaped_same_length.
    + intros i a b. apply zip_with_nth_error.
Qed.

(** C4. For a well-shaped tensor and an index of the right length within
    bounds, [access(idx)] returns [objective_list[k]] for the row-major index
    [k = sum_i idx[i] * product(shape[i+1:])]: the loop leaves
    [list_index = k + 1] and the lookup is at [list_index - 1]. *)
Theorem access_is_row_major (A : tequilaTensor T) (idx : list Z) :
  well_shaped A ->
  length idx = length (shape A) ->
  in_bounds idx (shape A) ->
  0 <= row_major idx (shape A) < len (objective_list A) /\
  access A idx = py_getitem (objective_list A) (row_major idx (shape A)) /\
  (exists x,
     nth_error (objective_list A) (Z.to_nat (row_major idx (shape A)))
     = Some x /\
     access A idx = Ok x) /\
  (idx <> [] ->
   access_list_index A idx = Ok (row_major idx (shape A) + 1)).
Proof.
  intros HA Hlen Hb.
  destruct (access_in_bounds A idx HA Hlen Hb) as (Hk & Hget & Hx).
  repeat split; try assumption; try apply Hk.
  intros Hne. rewrite access_list_index_spec by assumption.
  destruct idx; [contradiction | reflexivity].
Qed.

(** C5. For a number [c], [c * A] and [A * c] give the same tensor, of the
    shape of A: [__rmul__] hands its operand to [__mul__]. *)
Theorem scalar_mul_two_sided (A : tequilaTensor T) (c : number F C) :
  __rmul__ A (PyNum c) = __mul__ A (PyNum c) /\
  py_mul_left c A = py_mul_right A (PyNum c) /\
  exists R,
    py_mul_left c A = Ok R /\
    py_mul_right A (PyNum c) = Ok R /\
    shape R = shape A /\
    objective_list R = map (fun x => elem_scale x c) (objective_list A).
Proof.
  split; [reflexivity |]. split; [reflexivity |].
  unfold py_mul_left, py_mul_right, __rmul__. rewrite mul_scalar.
  eexists. repeat split.
Qed.

End Claims.

(** ** The bounds check is one-sided *)

Lemma access_check_cases {X : Type} (A : tequilaTensor X) (idx : list Z) :
  length idx = length (shape A) ->
  (access_check A idx = Raise ValueError <-> overflows idx (shape A)) /\
  (access_check A idx = Ok tt <-> ~ overflows idx (shape A)).
Proof.
  intros Hlen.
  destruct (overflow_dec idx (shape A)) as [Hall | Hov].
  - pose proof (access_check_ok A idx Hlen Hall) as Hok.
    assert (Hno : ~ overflows idx (shape A)).
    { intros (j & i & s & Hi & Hs & Hge).
      pose proof (Hall j i s Hi Hs). lia. }
    rewrite Hok. split; split; intros; try tauto; discriminate.
  - pose proof (access_check_raise A idx Hlen Hov) as Hraise.
    rewrite Hraise. split; split; intros; try tauto; discriminate.
Qed.

Import IntTensor.

(** The notebook's first test, on integers: [A[3,1]], [A*2], [2*A], [A*A]. *)
Example notebook_access : __getitem__ A [3; 1] = Ok 8.
Proof. reflexivity. Qed.

Example notebook_products :
  (A2 <- py_mul_right A (int 2) ;;
   A4 <- py_mul_left (PyInt 2) A2 ;;
   py_mul_right A4 (PyTensor A4))
  = Ok (mkTensor [16; 64; 144; 256; 400; 576; 784; 1024] [4; 2]).
Proof. reflexivity. Qed.

Example notebook_wrong_shape : __add__ A (PyTensor B2) = Raise Exception.
Proof. reflexivity. Qed.

Example row_major_example : row_major [3; 1] [4; 2] = 7.
Proof. reflexivity. Qed.

(** Without the length condition the loops can run off a list: the shapes
    agree, but the right operand has too few entries. *)
Example add_short_operand :
  __add__ A (PyTensor (mkTensor [1; 2] [4; 2])) = Raise IndexError.
Proof. reflexivity. Qed.

Example access_short_list :
  access (mkTensor [1; 2] [4; 2]) [3; 1] = Raise IndexError.
Proof. reflexivity. Qed.

(** An operand that is neither a number nor a tensor has no [shape]. *)
Example mul_other_object : __mul__ A PyOther = Raise AttributeError.
Proof. reflexivity. Qed.

(** C6. [access] accepts an index with a negative component: with shape
    [4,2] and eight entries, [access((-1, 0))] passes the bounds check,
    leaves [list_index = -1] and returns [objective_list[-2]].  The bounds
    check rejects an index exactly when a component reaches its extent, so a
    component below zero is never what it rejects. *)
Theorem access_accepts_negative_component :
  (exists (A : tequilaTensor Z) (idx : list Z),
     length idx = length (shape A) /\
     (exists j i, nth_error idx j = Some i /\ i < 0) /\
     returns (access A idx)) /\
  (shape A = [4; 2] /\
   len (objective_list A) = 8 /\
   access_check A [-1; 0] = Ok tt /\
   access_list_index A [-1; 0] = Ok (-1) /\
   access A [-1; 0] = py_getitem (objective_list A) (-2) /\
   access A [-1; 0] = Ok 7) /\
  (forall (X : Type) (A : tequilaTensor X) (idx : list Z),
     length idx = length (shape A) ->
     (access_check A idx = Raise ValueError <-> overflows idx (shape A)) /\
     (access_check A idx = Ok tt <-> ~ overflows idx (shape A))).
Proof.
  split; [| split].
  - exists A, [-1; 0]. split; [reflexivity |]. split.
    + exists 0%nat, (-1). split; [reflexivity | lia].
    + exists 7. reflexivity.
  - repeat split.
  - intros X A0 idx. apply access_check_cases.
Qed.

(** ** Concrete instances of the claims *)

Lemma well_shaped_A : well_shaped A.
Proof. reflexivity. Defined.

Lemma well_shaped_B2 : well_shaped B2.
Proof. reflexivity. Defined.

Lemma in_bounds_3_1 : in_bounds [3; 1] [4; 2].
Proof. unfold in_bounds. literal_bounds. Defined.

Lemma add_raises_iff_shapes_differ_witness :
  well_shaped A /\ well_shaped B2 /\
  raises (__add__ A (PyTensor B2)) /\
  exists R, __add__ A (PyTensor A) = Ok R /\ shape R = shape A.
Proof.
  split; [exact well_shaped_A |]. split; [exact well_shaped_B2 |]. split.
  - apply (proj1 (add_raises_iff_shapes_differ A B2
                    well_shaped_A well_shaped_B2)).
    discriminate.
  - destruct (proj2 (add_raises_iff_shapes_differ A A
                       well_shaped_A well_shaped_A) eq_refl)
      as (R & HR & Hs & _).
    exists R. split; assumption.
Defined.

Lemma access_raises_or_returns_witness :
  well_shaped A /\ length [3; 1] = length (shape A) /\
  in_bounds [3; 1] (shape A) /\ returns (access A [3; 1]).
Proof.
  split; [exact well_shaped_A |]. split; [reflexivity |].
  split; [exact in_bounds_3_1 |].
  exact (proj1 (proj2 (proj2 (access_raises_or_returns A [3; 1]
                                well_shaped_A)))
           eq_refl in_bounds_3_1).
Defined.

Lemma mul_scalar_or_elementwise_witness :
  shape A = shape A /\ well_shaped A /\
  exists R, __mul__ A (PyTensor A) = Ok R /\ shape R = shape A.
Proof.
  split; [reflexivity |]. split; [exact well_shaped_A |].
  destruct (proj2 (proj2 (mul_scalar_or_elementwise A)) A eq_refl
              well_shaped_A well_shaped_A) as (R & HR & Hs & _).
  exists R. split; assumption.
Defined.

Lemma access_is_row_major_witness :
  well_shaped A /\ length [3; 1] = length (shape A) /\
  in_bounds [3; 1] (shape A) /\
  row_major [3; 1] (shape A) = 7 /\
  access A [3; 1] = py_getitem (objective_list A) (row_major [3; 1] (shape A)).
Proof.
  split; [exact well_shaped_A |]. split; [reflexivity |].
  split; [exact in_bounds_3_1 |]. split; [reflexivity |].
  exact (proj1 (proj2 (access_is_row_major A [3; 1]
                         well_shaped_A eq_refl in_bounds_3_1))).
Defined.

Lemma access_accepts_negative_component_witness :
  length [-1; 0] = length (shape A) /\
  (access_check A [-1; 0] = Ok tt <-> ~ overflows [-1; 0] (shape A)).
Proof.
  split; [reflexivity |].
  exact (proj2 (proj2 (proj2 access_accepts_negative_component)
                  Z A [-1; 0] eq_refl)).
Defined.

(** * Further properties of the class *)

(** ** Python indexing *)

Lemma py_getitem_out_of_range {X : Type} (l : list X) (i : Z) :
  i < - len l \/ len l <= i -> py_getitem l i = Raise IndexError.
Proof.
  intros Hout. unfold py_getitem.
  destruct (Z.ltb_spec i 0) as [Hneg | Hpos]; cbv zeta.
  - assert (E : (i + len l <? 0) = true)
      by (apply Z.ltb_lt; unfold len in *; lia).
    now rewrite E.
  - assert (E1 : (i <? 0) = false) by (apply Z.ltb_ge; lia).
    assert (E2 : (len l <=? i) = true) by (apply Z.leb_le; lia).
    now rewrite E1, E2.
Qed.

Lemma py_getitem_wrap {X : Type} (l : list X) (i : Z) :
  - len l <= i < 0 -> py_getitem l i = py_getitem l (i + len l).
Proof.
  intros Hi. unfold py_getitem.
  assert (E1 : (i <? 0) = true) by (apply Z.ltb_lt; lia).
  assert (E2 : (i + len l <? 0) = false) by (apply Z.ltb_ge; lia).
  now rewrite E1, !E2.
Qed.

Lemma py_getitem_in_range {X : Type} (l : list X) (i : Z) :
  0 <= i < len l ->
  exists x, nth_error l (Z.to_nat i) = Some x /\ py_getitem l i = Ok x.
Proof.
  intros Hi.
  destruct (nth_error_defined l (Z.to_nat i)) as [x Hx];
    [unfold len in Hi; lia |].
  exists x. split; [assumption |].
  rewrite <- (Z2Nat.id i) by lia. now apply py_getitem_nth_error.
Qed.

Lemma py_getitem_returns_iff {X : Type} (l : list X) (i : Z) :
  returns (py_getitem l i) <-> - len l <= i < len l.
Proof.
  split.
  - intros [x Hx].
    destruct (Z_lt_ge_dec i (- len l)) as [Hlo | Hlo];
      [rewrite py_getitem_out_of_range in Hx by lia; discriminate |].
    destruct (Z_lt_ge_dec i (len l)) as [Hhi | Hhi]; [lia |].
    rewrite py_getitem_out_of_range in Hx by lia. discriminate.
  - intros Hi. destruct (Z_lt_ge_dec i 0) as [Hneg | Hpos].
    + rewrite py_getitem_wrap by lia.
      destruct (py_getitem_in_range l (i + len l)) as (x & _ & Hx); [lia |].
      now exists x.
    + destruct (py_getitem_in_range l i) as (x & _ & Hx); [lia |].
      now exists x.
Qed.

Lemma len_map {X Y : Type} (g : X -> Y) (l : list X) : len (map g l) = len l.
Proof. unfold len. now rewrite length_map. Qed.

Lemma py_getitem_map {X Y : Type} (g : X -> Y) (l : list X) (i : Z) :
  py_getitem (map g l) i = (x <- py_getitem l i ;; Ok (g x)).
Proof.
  unfold py_getitem. rewrite len_map.
  destruct ((_ <? 0) || (len l <=? _)); [reflexivity |].
  rewrite nth_error_map. now destruct (nth_error l _).
Qed.

Lemma len_zip_with {X Y W : Type} (f : X -> Y -> W) (la : list X)
    (lb : list Y) :
  length la = length lb -> len (zip_with f la lb) = len la.
Proof. intros Hlen. unfold len. now rewrite zip_with_length. Qed.

Lemma nth_error_zip_with {X Y W : Type} (f : X -> Y -> W) (la : list X)
    (lb : list Y) (n : nat) :
  nth_error (zip_with f la lb) n
  = match nth_error la n, nth_error lb n with
    | Some x, Some y => Some (f x y)
    | _, _ => None
    end.
Proof.
  revert lb n. induction la as [| x la IH]; intros [| y lb] [| n]; cbn;
    try reflexivity.
  - now destruct (nth_error la n).
  - apply IH.
Qed.

Lemma py_getitem_zip_with {X Y W : Type} (f : X -> Y -> W) (la : list X)
    (lb : list Y) (i : Z) :
  length la = length lb ->
  py_getitem (zip_with f la lb) i
  = (x <- py_getitem la i ;; y <- py_getitem lb i ;; Ok (f x y)).
Proof.
  intros Hlen. unfold py_getitem. rewrite len_zip_with by assumption.
  replace (len lb) with (len la) by (unfold len; lia).
  destruct ((_ <? 0) || (len la <=? _)) eqn:E; [reflexivity |].
  rewrite nth_error_zip_with.
  destruct (nth_error la _) as [x |] eqn:Ea;
    destruct (nth_error lb _) as [y |] eqn:Eb; reflexivity.
Qed.

(** ** [access] without the length condition and below zero *)

Lemma not_overflows_below (idx shp : list Z) :
  ~ overflows idx shp ->
  forall j i s, nth_error idx j = Some i -> nth_error shp j = Some s -> i < s.
Proof.
  intros Hno. destruct (overflow_dec idx shp) as [Hall | Hov];
    [exact Hall | contradiction].
Qed.

(** The position that [access] looks up once the bounds check has passed. *)
Lemma access_no_overflow {T : Type} (A : tequilaTensor T) (idx : list Z) :
  length idx = length (shape A) -> ~ overflows idx (shape A) ->
  access A idx
  = py_getitem (objective_list A)
      (match idx with [] => -1 | _ :: _ => row_major idx (shape A) end).
Proof.
  intros Hlen Hno. unfold access.
  rewrite (proj2 (len_eqb_length idx (shape A)) Hlen). cbn [negb].
  rewrite access_check_ok
    by (try assumption; now apply not_overflows_below).
  rewrite access_list_index_spec by assumption. cbn [bind].
  destruct idx as [| i idx]; [reflexivity |]. f_equal. lia.
Qed.

Lemma flat_index_inj (shp : list Z) :
  forall idx idx' : list Z,
    length idx = length shp -> length idx' = length shp ->
    in_bounds idx shp -> in_bounds idx' shp ->
    flat_index idx shp = flat_index idx' shp -> idx = idx'.
Proof.
  induction shp as [| s shp IH]; intros [| i idx] [| i' idx'] Hl Hl' Hb Hb' Heq;
    cbn in Hl, Hl'; try discriminate; [reflexivity |].
  apply in_bounds_cons in Hb as [Hi Hb].
  apply in_bounds_cons in Hb' as [Hi' Hb'].
  pose proof (flat_index_bounds idx shp ltac:(lia) Hb) as Hk.
  pose proof (flat_index_bounds idx' shp ltac:(lia) Hb') as Hk'.
  cbn [flat_index] in Heq.
  assert (i = i') by nia. subst i'.
  f_equal. apply IH; try assumption; lia.
Qed.

Section AccessMore.

Context {T : Type}.

(** X1. When the lengths agree and no component reaches its extent, [access]
    is the Python lookup [objective_list[k]] at the row-major index [k],
    whatever the signs of the components and however long the list is (for
    the empty index the lookup is at [-1], the last entry).  It returns
    exactly when [-len <= k < len] and raises [IndexError] otherwise. *)
Theorem access_flat_lookup (A : tequilaTensor T) (idx : list Z) :
  length idx = length (shape A) -> ~ overflows idx (shape A) ->
  let k := match idx with [] => -1 | _ :: _ => row_major idx (shape A) end in
  access A idx = py_getitem (objective_list A) k /\
  (returns (access A idx)
   <-> - len (objective_list A) <= k < len (objective_list A)) /\
  (access A idx = Raise IndexError
   <-> k < - len (objective_list A) \/ len (objective_list A) <= k).
Proof.
  intros Hlen Hno k. rewrite access_no_overflow by assumption. fold k.
  split; [reflexivity |]. split; [apply py_getitem_returns_iff |].
  split.
  - intros Hraise.
    destruct (Z_lt_ge_dec k (- len (objective_list A))) as [Hlo | Hlo];
      [now left |].
    destruct (Z_lt_ge_dec k (len (objective_list A))) as [Hhi | Hhi];
      [| right; lia].
    destruct (proj2 (py_getitem_returns_iff (objective_list A) k)) as [x Hx];
      [lia |].
    rewrite Hx in Hraise. discriminate.
  - apply py_getitem_out_of_range.
Qed.

(** X2. On a well-shaped tensor a negative first component counts from the
    end of the first axis, as in Python: for [-shape[0] <= i < 0] and the
    remaining components within bounds, [access((i, rest))] is
    [access((i + shape[0], rest))]. *)
Theorem access_first_component_wraps (A : tequilaTensor T) (i s0 : Z)
    (rest shp : list Z) :
  well_shaped A -> shape A = s0 :: shp ->
  length rest = length shp -> in_bounds rest shp ->
  - s0 <= i < 0 ->
  access A (i :: rest) = access A (i + s0 :: rest) /\
  returns (access A (i :: rest)).
Proof.
  intros HA Hsh Hlen Hb Hi.
  pose proof (flat_index_bounds rest shp Hlen Hb) as Hk.
  rewrite <- row_major_flat_index in Hk by assumption.
  assert (Hlist : len (objective_list A) = s0 * list_prod shp).
  { unfold well_shaped in HA. rewrite HA, Hsh. reflexivity. }
  assert (Heq : access A (i :: rest) = access A (i + s0 :: rest)).
  { rewrite !access_no_overflow; rewrite ?Hsh; cbn [length]; try congruence.
    - rewrite !row_major_cons.
      rewrite py_getitem_wrap by (rewrite Hlist; nia).
      f_equal. rewrite Hlist. ring.
    - intros ([| j] & x & s & Hx & Hs & Hge); cbn in Hx, Hs.
      + injection Hx as <-. injection Hs as <-. lia.
      + pose proof (Hb j x s Hx Hs). lia.
    - intros ([| j] & x & s & Hx & Hs & Hge); cbn in Hx, Hs.
      + injection Hx as <-. injection Hs as <-. lia.
      + pose proof (Hb j x s Hx Hs). lia. }
  split; [exact Heq |]. rewrite Heq.
  assert (Hb' : in_bounds (i + s0 :: rest) (shape A)).
  { rewrite Hsh. intros [| j] x s Hx Hs; cbn in Hx, Hs.
    - injection Hx as <-. injection Hs as <-. lia.
    - exact (Hb j x s Hx Hs). }
  destruct (access_in_bounds A (i + s0 :: rest) HA) as (_ & _ & x & _ & Hx);
    [rewrite Hsh; cbn; congruence | exact Hb' |].
  now exists x.
Qed.

(** X3. Two indices within bounds that leave the same [list_index] are the
    same index: [access] never maps two cells of the shape to one position
    of the list. *)
Theorem access_list_index_injective (A : tequilaTensor T)
    (idx idx' : list Z) :
  length idx = length (shape A) -> length idx' = length (shape A) ->
  in_bounds idx (shape A) -> in_bounds idx' (shape A) ->
  access_list_index A idx = access_list_index A idx' ->
  idx = idx'.
Proof.
  intros Hl Hl' Hb Hb' Heq.
  rewrite !access_list_index_spec in Heq by assumption.
  apply (flat_index_inj (shape A)); try assumption.
  rewrite <- !row_major_flat_index by assumption.
  destruct idx as [| i idx], idx' as [| i' idx']; cbn in Hl, Hl';
    try congruence; injection Heq as Heq; lia.
Qed.

End AccessMore.

(** ** Element-wise operations without the length condition *)

Section ElementwiseLoop.

Context {X Y W : Type}.

(** The loop runs off the second list. *)
Lemma for_in_zip_short (f : X -> Y -> W) (la : list X) (lb : list Y) :
  forall (n a : nat) (acc : list W),
    (a + n <= length la)%nat -> (a <= length lb)%nat ->
    (length lb < a + n)%nat ->
    for_in (range_from (Z.of_nat a) n)
      (fun i acc =>
         x <- py_getitem la i ;; y <- py_getitem lb i ;; Ok (acc ++ [f x y]))
      acc
    = Raise IndexError.
Proof.
  induction n as [| n IH]; intros a acc Ha Hb Hshort; [lia |].
  destruct (nth_error_defined la a) as [x Hx]; [lia |].
  cbn [range_from for_in].
  rewrite (py_getitem_nth_error _ _ _ Hx). cbn [bind].
  destruct (Nat.eq_dec a (length lb)) as [Elast | Hne].
  - rewrite py_getitem_out_of_range by (unfold len; lia). reflexivity.
  - destruct (nth_error_defined lb a) as [y Hy]; [lia |].
    rewrite (py_getitem_nth_error _ _ _ Hy). cbn [bind].
    replace (Z.of_nat a + 1) with (Z.of_nat (S a)) by lia.
    apply IH; lia.
Qed.

Lemma zip_with_firstn_r (f : X -> Y -> W) (la : list X) (lb : list Y) :
  zip_with f la (firstn (length la) lb) = zip_with f la lb.
Proof.
  revert lb. induction la as [| x la IH]; intros [| y lb]; cbn;
    try reflexivity.
  now rewrite IH.
Qed.

Lemma zip_with_length_le (f : X -> Y -> W) (la : list X) (lb : list Y) :
  (length la <= length lb)%nat -> length (zip_with f la lb) = length la.
Proof.
  revert lb. induction la as [| x la IH]; intros [| y lb] Hle; cbn in *;
    try reflexivity; try lia.
  f_equal. apply IH. lia.
Qed.

(** What the index loop of [__add__] and [__mul__] yields on any two
    lists. *)
Lemma elementwise_loop_cases (f : X -> Y -> W) (la : list X) (lb : list Y) :
  for_in (py_range 0 (len la))
    (fun i acc =>
       x <- py_getitem la i ;; y <- py_getitem lb i ;; Ok (acc ++ [f x y]))
    []
  = if (length la <=? length lb)%nat then Ok (zip_with f la lb)
    else Raise IndexError.
Proof.
  rewrite py_range_len.
  destruct (Nat.leb_spec (length la) (length lb)) as [Hle | Hgt].
  - rewrite for_in_zip by (cbn; lia). cbn [skipn app].
    now rewrite firstn_all, zip_with_firstn_r.
  - apply for_in_zip_short; cbn; lia.
Qed.

Lemma zip_with_map (f : W -> W -> W) (g : W -> W) (la lb : list W) :
  (forall x y, g (f x y) = f (g x) (g y)) ->
  map g (zip_with f la lb) = zip_with f (map g la) (map g lb).
Proof.
  intros Hdist. revert lb. induction la as [| x la IH]; intros [| y lb];
    cbn; try reflexivity.
  now rewrite Hdist, IH.
Qed.

Lemma zip_with_comm (f : X -> X -> W) (la lb : list X) :
  (forall x y, f x y = f y x) -> zip_with f la lb = zip_with f lb la.
Proof.
  intros Hcomm. revert lb. induction la as [| x la IH]; intros [| y lb];
    cbn; try reflexivity.
  now rewrite Hcomm, IH.
Qed.

End ElementwiseLoop.

Section ArithmeticMore.

Context {T F C : Type} `{Element T F C}.

(** [A + B] for two tensors, in full. *)
Lemma add_tensor_cases (A B : tequilaTensor T) :
  __add__ A (PyTensor B)
  = if list_eqb (shape A) (shape B) then
      if (length (objective_list A) <=? length (objective_list B))%nat then
        Ok (mkTensor
              (zip_with elem_add (objective_list A) (objective_list B))
              (shape A))
      else Raise IndexError
    else Raise Exception.
Proof.
  unfold __add__. cbn [getattr_shape bind].
  destruct (list_eqb (shape A) (shape B)); [| reflexivity]. cbn [negb].
  pose proof (elementwise_loop_cases elem_add (objective_list A)
                (objective_list B)) as Hloop.
  cbn [getattr_objective_list bind] in Hloop |- *. rewrite Hloop.
  now destruct (_ <=? _)%nat.
Qed.

(** [A * B] for two tensors, in full. *)
Lemma mul_tensor_cases (A B : tequilaTensor T) :
  __mul__ A (PyTensor B : pyobj T F C)
  = if list_eqb (shape A) (shape B) then
      if (length (objective_list A) <=? length (objective_list B))%nat then
        Ok (mkTensor
              (zip_with elem_mul (objective_list A) (objective_list B))
              (shape A))
      else Raise IndexError
    else Raise Exception.
Proof.
  unfold __mul__. rewrite is_scalar_tensor. cbn [getattr_shape bind].
  destruct (list_eqb (shape A) (shape B)); [| reflexivity]. cbn [negb].
  pose proof (elementwise_loop_cases elem_mul (objective_list A)
                (objective_list B)) as Hloop.
  cbn [getattr_objective_list bind] in Hloop |- *. rewrite Hloop.
  now destruct (_ <=? _)%nat.
Qed.

End ArithmeticMore.

Lemma access_check_shape {T U : Type} (A : tequilaTensor T)
    (B : tequilaTensor U) (idx : list Z) :
  shape A = shape B -> access_check A idx = access_check B idx.
Proof. unfold access_check. now intros ->. Qed.

Lemma access_list_index_shape {T U : Type} (A : tequilaTensor T)
    (B : tequilaTensor U) (idx : list Z) :
  shape A = shape B -> access_list_index A idx = access_list_index B idx.
Proof. unfold access_list_index. now intros ->. Qed.

Section ArithmeticExtras.

Context {T F C : Type} `{Element T F C}.

(** X4. For two tensors of one shape, [A + B] and [A * B] go through exactly
    when B has at least as many entries as A: the result then has the
    entries of A combined with the entries of B at the same positions (what
    B has beyond is ignored), and otherwise the loop raises [IndexError]. *)
Theorem elementwise_needs_long_operand (A B : tequilaTensor T) :
  shape A = shape B ->
  ((length (objective_list A) <= length (objective_list B))%nat ->
   __add__ A (PyTensor B)
   = Ok (mkTensor (zip_with elem_add (objective_list A) (objective_list B))
                  (shape A)) /\
   __mul__ A (PyTensor B : pyobj T F C)
   = Ok (mkTensor (zip_with elem_mul (objective_list A) (objective_list B))
                  (shape A)) /\
   length (zip_with elem_add (objective_list A) (objective_list B))
   = length (objective_list A)) /\
  ((length (objective_list B) < length (objective_list A))%nat ->
   __add__ A (PyTensor B) = Raise IndexError /\
   __mul__ A (PyTensor B : pyobj T F C) = Raise IndexError).
Proof.
  intros Hsh. rewrite add_tensor_cases, mul_tensor_cases.
  rewrite (proj2 (list_eqb_eq _ _) Hsh). split; intros Hlen.
  - rewrite (proj2 (Nat.leb_le _ _) Hlen).
    repeat split. now apply zip_with_length_le.
  - rewrite (proj2 (Nat.leb_gt _ _) Hlen). split; reflexivity.
Qed.

(** X5. Whatever the right operand, a tensor returned by [+] or [*] on a
    well-shaped tensor has the shape and the number of entries of the left
    operand, and so is well-shaped again. *)
Theorem results_are_well_shaped (A R : tequilaTensor T)
    (other : pyobj T F C) :
  well_shaped A ->
  __add__ A other = Ok R \/ __mul__ A other = Ok R ->
  shape R = shape A /\
  length (objective_list R) = length (objective_list A) /\
  well_shaped R.
Proof.
  intros HA Hop.
  assert (Hfields : shape R = shape A /\
                    length (objective_list R) = length (objective_list A)).
  { destruct other as [c | B |].
    - destruct Hop as [Hadd | Hmul]; [discriminate |].
      rewrite mul_scalar in Hmul. injection Hmul as <-.
      cbn. now rewrite length_map.
    - rewrite add_tensor_cases, mul_tensor_cases in Hop.
      destruct (list_eqb (shape A) (shape B));
        [| destruct Hop; discriminate].
      destruct (Nat.leb_spec (length (objective_list A))
                  (length (objective_list B))) as [Hle | Hgt];
        [| destruct Hop; discriminate].
      destruct Hop as [Hop | Hop]; injection Hop as <-; cbn;
        now rewrite zip_with_length_le.
    - destruct Hop; discriminate. }
  destruct Hfields as [Hs Hl]. repeat split; try assumption.
  unfold well_shaped, len in *. rewrite Hs, Hl. exact HA.
Qed.

(** X6. Reading a cell of [A * c] gives the cell of [A] times [c], and
    raises what reading [A] raises: for every tensor, number and index,
    [(A * c)[idx]] is [A[idx] * c]. *)
Theorem getitem_of_scalar_multiple (A : tequilaTensor T) (c : number F C)
    (idx : list Z) :
  (R <- __mul__ A (PyNum c) ;; __getitem__ R idx)
  = (x <- __getitem__ A idx ;; Ok (elem_scale x c)).
Proof.
  rewrite mul_scalar. cbn [bind]. unfold __getitem__, access.
  set (R := mkTensor _ _).
  rewrite (access_check_shape R A), (access_list_index_shape R A)
    by reflexivity.
  cbn [shape objective_list R].
  destruct (negb _); [reflexivity |].
  destruct (access_check A idx) as [[] | e]; [| reflexivity].
  destruct (access_list_index A idx) as [k | e]; [| reflexivity].
  cbn [bind]. apply py_getitem_map.
Qed.

(** X7. For well-shaped tensors of one shape, reading a cell of [A + B]
    gives the sum of the cells of [A] and [B], and raises what reading [A]
    raises: [(A + B)[idx]] is [A[idx] + B[idx]] for every index. *)
Theorem getitem_of_sum (A B : tequilaTensor T) (idx : list Z) :
  well_shaped A -> well_shaped B -> shape A = shape B ->
  (R <- __add__ A (PyTensor B) ;; __getitem__ R idx)
  = (x <- __getitem__ A idx ;;
     y <- __getitem__ B idx ;;
     Ok (elem_add x y)).
Proof.
  intros HA HB Hsh. rewrite add_same_shape by assumption. cbn [bind].
  unfold __getitem__, access.
  set (R := mkTensor _ _).
  rewrite (access_check_shape R A), (access_list_index_shape R A)
    by reflexivity.
  rewrite (access_check_shape B A), (access_list_index_shape B A)
    by congruence.
  cbn [shape objective_list R]. rewrite <- Hsh.
  destruct (negb _); [reflexivity |].
  destruct (access_check A idx) as [[] | e]; [| reflexivity].
  destruct (access_list_index A idx) as [k | e]; [| reflexivity].
  cbn [bind]. apply py_getitem_zip_with.
  now apply well_shaped_same_length.
Qed.

(** X8. When the entries add commutatively, so do well-shaped tensors:
    [A + B] and [B + A] are the same result (the same tensor, or both an
    [Exception] for differing shapes). *)
Theorem add_commutes (A B : tequilaTensor T) :
  (forall x y : T, elem_add x y = elem_add y x) ->
  well_shaped A -> well_shaped B ->
  __add__ A (PyTensor B) = __add__ B (PyTensor A).
Proof.
  intros Hcomm HA HB.
  destruct (list_eqb (shape A) (shape B)) eqn:E.
  - apply list_eqb_eq in E.
    rewrite !add_same_shape by congruence.
    now rewrite (zip_with_comm elem_add _ _ Hcomm), E.
  - apply list_eqb_neq in E.
    rewrite !add_other_shape by congruence. reflexivity.
Qed.

(** X9. When multiplying an entry by [c] distributes over the sum of
    entries, [(A + B) * c] is [A * c + B * c] for all tensors: the same
    tensor, or the same exception ([Exception] for differing shapes,
    [IndexError] when B has fewer entries than A). *)
Theorem scalar_mul_distributes (A B : tequilaTensor T) (c : number F C) :
  (forall x y : T,
     elem_scale (elem_add x y) c
     = elem_add (elem_scale x c) (elem_scale y c)) ->
  (AB <- __add__ A (PyTensor B) ;; __mul__ AB (PyNum c))
  = (A' <- __mul__ A (PyNum c) ;;
     B' <- __mul__ B (PyNum c) ;;
     __add__ A' (PyTensor B')).
Proof.
  intros Hdist. rewrite !mul_scalar. cbn [bind].
  rewrite !add_tensor_cases. cbn [shape objective_list].
  rewrite !length_map.
  destruct (list_eqb (shape A) (shape B)); [| reflexivity].
  destruct (_ <=? _)%nat; [| reflexivity].
  cbn [bind]. rewrite mul_scalar. cbn [shape objective_list].
  now rewrite (zip_with_map elem_add (fun x => elem_scale x c) _ _ Hdist).
Qed.

End ArithmeticExtras.

(** ** [_prod] at every position *)

Lemma for_in_app {St : Type} (xs ys : list Z) (body : Z -> St -> result St)
    (s : St) :
  for_in (xs ++ ys) body s = (s' <- for_in xs body s ;; for_in ys body s').
Proof.
  revert s. induction xs as [| i xs IH]; intros s; [reflexivity |].
  cbn [app for_in]. destruct (body i s) as [s' | e]; [| reflexivity].
  cbn [bind]. apply IH.
Qed.

Lemma range_from_app (a : Z) (n m : nat) :
  range_from a (n + m) = range_from a n ++ range_from (a + Z.of_nat n) m.
Proof.
  revert a. induction n as [| n IH]; intros a.
  - cbn. f_equal. lia.
  - cbn [Nat.add range_from app]. f_equal. rewrite IH. do 2 f_equal. lia.
Qed.

(** Below zero the loop of [_prod] reads the list from its end. *)
Lemma for_in_prod_wrap (l : list Z) :
  forall (n : nat) (b acc : Z),
    - len l <= b -> b + Z.of_nat n <= 0 ->
    for_in (range_from b n)
      (fun i prod => x <- py_getitem l i ;; Ok (prod * x)) acc
    = for_in (range_from (b + len l) n)
        (fun i prod => x <- py_getitem l i ;; Ok (prod * x)) acc.
Proof.
  induction n as [| n IH]; intros b acc Hlo Hhi; [reflexivity |].
  cbn [range_from for_in]. rewrite (py_getitem_wrap l b) by lia.
  destruct (py_getitem l (b + len l)) as [x | e]; [| reflexivity].
  cbn [bind]. rewrite IH by lia. do 2 f_equal. lia.
Qed.

(** X10. [_prod(any_list, integer)] for every position: from [-1] upwards
    it returns the product of the entries after the position (1 when there
    is none); for a position further below zero the loop indexes from the
    end of the list, so the last entries are multiplied in once more on top
    of the whole list; and it raises [IndexError] once [integer + 1] falls
    below [-len(any_list)]. *)
Theorem prod_at_every_position (any_list : list Z) (integer : Z) :
  (-1 <= integer ->
   _prod any_list integer
   = Ok (list_prod (skipn (Z.to_nat (integer + 1)) any_list))) /\
  (len any_list - 1 <= integer -> _prod any_list integer = Ok 1) /\
  (- len any_list <= integer + 1 < 0 ->
   _prod any_list integer
   = Ok (list_prod (skipn (Z.to_nat (integer + 1 + len any_list)) any_list)
         * list_prod any_list)) /\
  (integer + 1 < - len any_list ->
   _prod any_list integer = Raise IndexError).
Proof.
  assert (Hup : -1 <= integer ->
                _prod any_list integer
                = Ok (list_prod (skipn (Z.to_nat (integer + 1)) any_list))).
  { intros Hge. unfold _prod, py_range, len.
    set (a := Z.to_nat (integer + 1)).
    replace (integer + 1) with (Z.of_nat a) by lia.
    destruct (Nat.le_gt_cases a (length any_list)) as [Hle | Hgt].
    - rewrite for_in_prod by lia. apply (f_equal Ok). lia.
    - replace (Z.to_nat _) with 0%nat by lia.
      rewrite skipn_past by lia. reflexivity. }
  split; [exact Hup |]. split; [| split].
  - intros Hge. rewrite Hup by (unfold len in *; lia).
    rewrite skipn_past by (unfold len in *; lia). reflexivity.
  - intros Hneg. unfold _prod, py_range.
    set (b := integer + 1) in *.
    replace (Z.to_nat (len any_list - b))
      with (Z.to_nat (- b) + length any_list)%nat by (unfold len; lia).
    rewrite range_from_app, for_in_app.
    rewrite for_in_prod_wrap by lia.
    replace (b + len any_list) with (Z.of_nat (Z.to_nat (b + len any_list)))
      by lia.
    rewrite for_in_prod by (unfold len in *; lia). cbn [bind].
    replace (b + Z.of_nat (Z.to_nat (- b))) with (Z.of_nat 0) by lia.
    rewrite for_in_prod by lia. cbn [skipn].
    apply (f_equal Ok). rewrite Z2Nat.id by lia. ring.
  - intros Hlow. unfold _prod, py_range.
    destruct (Z.to_nat (len any_list - (integer + 1))) as [| n] eqn:E;
      [unfold len in *; lia |].
    cbn [range_from for_in].
    rewrite py_getitem_out_of_range by lia. reflexivity.
Qed.

(** ** The loop over the cells of a matrix *)

Lemma row_major_2d (i j r c : Z) : row_major [i; j] [r; c] = i * c + j.
Proof. unfold row_major, row_major_from, list_sum, list_prod. cbn. ring. Qed.

Lemma in_bounds_2d (i j r c : Z) :
  0 <= i < r -> 0 <= j < c -> in_bounds [i; j] [r; c].
Proof.
  intros Hi Hj [| [| k]] x s Hx Hs; cbn in Hx, Hs.
  - injection Hx as <-. injection Hs as <-. exact Hi.
  - injection Hx as <-. injection Hs as <-. exact Hj.
  - destruct k; discriminate.
Qed.

Lemma cells_of_app {T : Type} (out1 out2 : list (printed T)) :
  cells_of (out1 ++ out2) = cells_of out1 ++ cells_of out2.
Proof.
  induction out1 as [| [| x] out1 IH]; cbn; [reflexivity | exact IH |].
  now rewrite IH.
Qed.

Lemma cells_of_map_Cell {T : Type} (l : list T) : cells_of (map Cell l) = l.
Proof. induction l as [| x l IH]; cbn; [reflexivity | now rewrite IH]. Qed.

Lemma firstn_plus {T : Type} (a b : nat) (l : list T) :
  firstn (a + b) l = firstn a l ++ firstn b (skipn a l).
Proof.
  revert l. induction a as [| a IH]; intros [| x l]; cbn;
    try reflexivity.
  - now rewrite firstn_nil.
  - now rewrite IH.
Qed.

Lemma cells_of_matrix_layout {T : Type} (rows cols : nat) (l : list T) :
  cells_of (matrix_layout rows cols l) = firstn (rows * cols) l.
Proof.
  revert l. induction rows as [| rows IH]; intros l; [reflexivity |].
  cbn [matrix_layout cells_of Nat.mul].
  now rewrite cells_of_app, cells_of_map_Cell, IH, firstn_plus.
Qed.

Section PrintMatrix.

Context {T : Type}.

Variable A : tequilaTensor T.
Variables r c : nat.
Hypothesis A_shape : shape A = [Z.of_nat r; Z.of_nat c].
Hypothesis A_well_shaped : well_shaped A.

Lemma matrix_length : length (objective_list A) = (r * c)%nat.
Proof.
  unfold well_shaped, len, list_prod in A_well_shaped.
  rewrite A_shape in A_well_shaped. cbn [fold_right] in A_well_shaped. nia.
Qed.

Lemma matrix_cell (i j : nat) :
  (i < r)%nat -> (j < c)%nat ->
  exists x, nth_error (objective_list A) (i * c + j) = Some x /\
            __getitem__ A [Z.of_nat i; Z.of_nat j] = Ok x.
Proof.
  intros Hi Hj.
  destruct (access_in_bounds A [Z.of_nat i; Z.of_nat j] A_well_shaped)
    as (_ & _ & x & Hx & Hacc).
  - now rewrite A_shape.
  - rewrite A_shape. apply in_bounds_2d; lia.
  - rewrite A_shape, row_major_2d in Hx.
    replace (Z.to_nat _) with (i * c + j)%nat in Hx by nia.
    now exists x.
Qed.

(** The inner loop writes the cells of row [i] from column [b] on. *)
Lemma print_row (i : nat) :
  (i < r)%nat ->
  forall (n b : nat) (out : list (printed T)),
    (b + n <= c)%nat ->
    for_in (range_from (Z.of_nat b) n)
      (fun j out =>
         x <- __getitem__ A [Z.of_nat i; j] ;; Ok (out ++ [Cell x]))
      out
    = Ok (out ++ map Cell (firstn n (skipn (i * c + b) (objective_list A)))).
Proof.
  intros Hi. induction n as [| n IH]; intros b out Hb.
  - cbn. now rewrite app_nil_r.
  - destruct (matrix_cell i b Hi ltac:(lia)) as (x & Hx & Hget).
    cbn [range_from for_in]. rewrite Hget. cbn [bind].
    replace (Z.of_nat b + 1) with (Z.of_nat (S b)) by lia.
    rewrite IH by lia.
    rewrite (skipn_cons_nth_error _ _ _ Hx). cbn [firstn map].
    rewrite <- app_assoc. cbn [app].
    now replace (i * c + S b)%nat with (S (i * c + b)) by lia.
Qed.

(** The outer loop writes the rows from row [a] on. *)
Lemma print_rows :
  forall (n a : nat) (out : list (printed T)),
    (a + n <= r)%nat ->
    for_in (range_from (Z.of_nat a) n)
      (fun i out =>
         let out := out ++ [Newline] in
         cols <- py_getitem (shape A) 1 ;;
         for_in (py_range 0 cols)
           (fun j out => x <- __getitem__ A [i; j] ;; Ok (out ++ [Cell x]))
           out)
      out
    = Ok (out ++ matrix_layout n c (skipn (a * c) (objective_list A))).
Proof.
  set (body := fun (i : Z) (out : list (printed T)) => _).
  assert (Hcols : py_getitem (shape A) 1 = Ok (Z.of_nat c))
    by (rewrite A_shape; reflexivity).
  induction n as [| n IH]; intros a out Ha.
  - cbn. now rewrite app_nil_r.
  - cbn [range_from for_in].
    assert (Hstep : body (Z.of_nat a) out
                    = Ok ((out ++ [Newline])
                          ++ map Cell (firstn c (skipn (a * c)
                                                   (objective_list A))))).
    { subst body. cbv beta zeta. rewrite Hcols. cbn [bind].
      replace (py_range 0 (Z.of_nat c)) with (range_from (Z.of_nat 0) c)
        by (unfold py_range; cbn [Z.of_nat]; f_equal; lia).
      rewrite (print_row a) by (cbn; lia). now rewrite Nat.add_0_r. }
    rewrite Hstep. cbn [bind].
    replace (Z.of_nat a + 1) with (Z.of_nat (S a)) by lia.
    rewrite IH by lia. cbn [matrix_layout].
    rewrite skipn_skipn, <- !app_assoc. cbn [app].
    now replace (c + a * c)%nat with (S a * c)%nat by lia.
Qed.

Lemma print_matrix_layout :
  print_matrix A = Ok (matrix_layout r c (objective_list A)).
Proof.
  unfold print_matrix.
  replace (py_getitem (shape A) 0) with (Ok (A := Z) (Z.of_nat r))
    by (rewrite A_shape; reflexivity).
  cbn [bind].
  replace (py_range 0 (Z.of_nat r)) with (range_from (Z.of_nat 0) r)
    by (unfold py_range; cbn [Z.of_nat]; f_equal; lia).
  rewrite print_rows by (cbn; lia). reflexivity.
Qed.

End PrintMatrix.

(** X11. For a well-shaped matrix (shape [[r, c]]) the notebook's double
    loop over [A[i,j]] never raises and writes [r] lines of [c] cells, and
    the cells written, in order, are exactly [objective_list].  On a tensor
    with a single axis of positive extent the loop raises [IndexError] at
    [A.shape[1]]. *)
Theorem print_matrix_writes_objective_list {T : Type} (A : tequilaTensor T) :
  (forall r c : Z,
     shape A = [r; c] -> 0 <= r -> 0 <= c -> well_shaped A ->
     exists out,
       print_matrix A = Ok out /\
       out = matrix_layout (Z.to_nat r) (Z.to_nat c) (objective_list A) /\
       cells_of out = objective_list A) /\
  (forall r : Z,
     shape A = [r] -> 0 < r -> print_matrix A = Raise IndexError).
Proof.
  split.
  - intros r c Hsh Hr Hc HA.
    assert (Hsh' : shape A = [Z.of_nat (Z.to_nat r); Z.of_nat (Z.to_nat c)])
      by (rewrite !Z2Nat.id by assumption; exact Hsh).
    eexists. split; [exact (print_matrix_layout A _ _ Hsh' HA) |].
    split; [reflexivity |].
    rewrite cells_of_matrix_layout.
    rewrite <- (matrix_length A _ _ Hsh' HA). apply firstn_all.
  - intros r Hsh Hr. unfold print_matrix. rewrite Hsh.
    change (py_getitem [r] 0) with (Ok r). cbn [bind]. unfold py_range.
    destruct (Z.to_nat (r - 0)) as [| n] eqn:E; [lia |]. reflexivity.
Qed.

(** ** Concrete instances *)

Example prod_wraps_below_zero :
  _prod [4; 2] (-1) = Ok 8 /\ _prod [4; 2] (-2) = Ok 16 /\
  _prod [4; 2] (-3) = Ok 64 /\ _prod [4; 2] (-4) = Raise IndexError.
Proof. repeat split. Qed.

(** A negative last component does not count from the end of its own axis:
    [A[0,-1]] is the last cell [A[3,1]], not [A[0,1]]. *)
Example access_negative_last_component :
  access A [0; -1] = Ok 8 /\ access A [3; 1] = Ok 8 /\ access A [0; 1] = Ok 2.
Proof. repeat split. Qed.

Example print_matrix_A :
  print_matrix A
  = Ok [Newline; Cell 1; Cell 2; Newline; Cell 3; Cell 4;
        Newline; Cell 5; Cell 6; Newline; Cell 7; Cell 8].
Proof. reflexivity. Qed.

Lemma not_overflows_neg1_0 : ~ overflows [-1; 0] (shape A).
Proof.
  intros ([| [| j]] & x & s & Hx & Hs & Hge); cbn in Hx, Hs.
  - injection Hx as <-. injection Hs as <-. lia.
  - injection Hx as <-. injection Hs as <-. lia.
  - destruct j; discriminate.
Defined.

Lemma in_bounds_1 : in_bounds [1] [2].
Proof. unfold in_bounds. literal_bounds. Defined.

Lemma access_flat_lookup_witness :
  length [-1; 0] = length (shape A) /\ ~ overflows [-1; 0] (shape A) /\
  access A [-1; 0] = py_getitem (objective_list A) (-2).
Proof.
  split; [reflexivity |]. split; [exact not_overflows_neg1_0 |].
  exact (proj1 (access_flat_lookup A [-1; 0] eq_refl not_overflows_neg1_0)).
Defined.

Lemma access_first_component_wraps_witness :
  well_shaped A /\ in_bounds [1] [2] /\ - 4 <= -1 < 0 /\
  access A [-1; 1] = access A [3; 1].
Proof.
  split; [exact well_shaped_A |]. split; [exact in_bounds_1 |].
  split; [lia |].
  refine (proj1 (access_first_component_wraps A (-1) 4 [1] [2]
                   well_shaped_A eq_refl eq_refl in_bounds_1 _)).
  lia.
Defined.

Lemma access_list_index_injective_witness :
  in_bounds [3; 1] (shape A) /\
  access_list_index A [3; 1] = access_list_index A [3; 1] /\
  [3; 1] = [3; 1].
Proof.
  split; [exact in_bounds_3_1 |]. split; [reflexivity |].
  exact (access_list_index_injective A [3; 1] [3; 1] eq_refl eq_refl
           in_bounds_3_1 in_bounds_3_1 eq_refl).
Defined.

Lemma elementwise_needs_long_operand_witness :
  shape A = shape (mkTensor [1; 2] [4; 2]) /\
  __add__ A (PyTensor (mkTensor [1; 2] [4; 2])) = Raise IndexError /\
  __add__ (mkTensor [1; 2] [4; 2]) (PyTensor A) = Ok (mkTensor [2; 4] [4; 2]).
Proof.
  split; [reflexivity |]. split.
  - refine (proj1 (proj2 (elementwise_needs_long_operand A
                            (mkTensor [1; 2] [4; 2]) eq_refl) _)).
    cbn. lia.
  - refine (proj1 (proj1 (elementwise_needs_long_operand
                            (mkTensor [1; 2] [4; 2]) A eq_refl) _)).
    cbn. lia.
Defined.

Lemma results_are_well_shaped_witness :
  well_shaped A /\
  __mul__ A (int 2) = Ok (mkTensor [2; 4; 6; 8; 10; 12; 14; 16] [4; 2]) /\
  well_shaped (mkTensor [2; 4; 6; 8; 10; 12; 14; 16] [4; 2]).
Proof.
  split; [exact well_shaped_A |]. split; [reflexivity |].
  exact (proj2 (proj2 (results_are_well_shaped A _ (int 2) well_shaped_A
                         (or_intror eq_refl)))).
Defined.

Lemma getitem_of_sum_witness :
  well_shaped A /\ shape A = shape A /\
  (R <- __add__ A (PyTensor A) ;; __getitem__ R [3; 1])
  = (x <- __getitem__ A [3; 1] ;; y <- __getitem__ A [3; 1] ;;
     Ok (elem_add x y)).
Proof.
  split; [exact well_shaped_A |]. split; [reflexivity |].
  exact (getitem_of_sum A A [3; 1] well_shaped_A well_shaped_A eq_refl).
Defined.

Lemma add_commutes_witness :
  (forall x y : Z, elem_add x y = elem_add y x) /\
  well_shaped A /\ well_shaped (mkTensor [8; 7; 6; 5; 4; 3; 2; 1] [4; 2]) /\
  __add__ A (PyTensor (mkTensor [8; 7; 6; 5; 4; 3; 2; 1] [4; 2]))
  = __add__ (mkTensor [8; 7; 6; 5; 4; 3; 2; 1] [4; 2]) (PyTensor A).
Proof.
  split; [exact Z.add_comm |]. split; [exact well_shaped_A |].
  split; [reflexivity |].
  exact (add_commutes A (mkTensor [8; 7; 6; 5; 4; 3; 2; 1] [4; 2])
           Z.add_comm well_shaped_A eq_refl).
Defined.

Lemma scale_2_distributes (x y : Z) :
  elem_scale (elem_add x y) (PyInt 2)
  = elem_add (elem_scale x (PyInt 2)) (elem_scale y (PyInt 2)).
Proof. cbn. lia. Defined.

Lemma scalar_mul_distributes_witness :
  (forall x y : Z,
     elem_scale (elem_add x y) (PyInt 2)
     = elem_add (elem_scale x (PyInt 2)) (elem_scale y (PyInt 2))) /\
  (AB <- __add__ A (PyTensor A) ;; __mul__ AB (int 2))
  = (A' <- __mul__ A (int 2) ;;
     B' <- __mul__ A (int 2) ;;
     __add__ A' (PyTensor B')).
Proof.
  split; [exact scale_2_distributes |].
  exact (scalar_mul_distributes A A (PyInt 2) scale_2_distributes).
Defined.

Lemma prod_at_every_position_witness :
  - len [4; 2] <= -3 + 1 < 0 /\ _prod [4; 2] (-3) = Ok (8 * 8).
Proof.
  split; [cbn; lia |].
  refine (proj1 (proj2 (proj2 (prod_at_every_position [4; 2] (-3)))) _).
  cbn. lia.
Defined.

Lemma print_matrix_writes_objective_list_witness :
  shape A = [4; 2] /\ well_shaped A /\
  exists out, print_matrix A = Ok out /\ cells_of out = objective_list A.
Proof.
  split; [reflexivity |]. split; [exact well_shaped_A |].
  destruct (proj1 (print_matrix_writes_objective_list A) 4 2 eq_refl
              ltac:(lia) ltac:(lia) well_shaped_A) as (out & Hout & _ & Hc).
  exists out. split; assumption.
Defined.

(** * The covariance dictionary *)

Section CovDictFacts.

Context {Term Key V : Type}.
Variable key_eq_dec : forall a b : Key, {a = b} + {a <> b}.
Variable binary_tuple : Term -> Key.
Variable commute : Term -> Term -> bool.
Variable cov : Term -> Term -> V.

Local Notation "'dget'" := (dict_get key_eq_dec).
Local Notation "'dset'" := (dict_set key_eq_dec).
Local Notation "'dset_e'" := (set_entry key_eq_dec).
Local Notation "'all_entries'" := (cov_entries binary_tuple commute cov).
Local Notation "'row_of'" := (row_entries binary_tuple commute cov).
Local Notation "'the_dict'" :=
  (prepare_cov_dict key_eq_dec binary_tuple commute cov).

Lemma dict_get_set (d : list (Key * Key * V)) (k k' : Key * Key) (v : V) :
  dget (dset d k v) k'
  = if pair_eq_dec key_eq_dec k' k then Some v else dget d k'.
Proof.
  induction d as [| [k0 v0] d IH]; cbn.
  - now destruct (pair_eq_dec key_eq_dec k' k).
  - destruct (pair_eq_dec key_eq_dec k k0) as [-> | Hne]; cbn.
    + now destruct (pair_eq_dec key_eq_dec k' k0).
    + destruct (pair_eq_dec key_eq_dec k' k0) as [-> | Hne'].
      * destruct (pair_eq_dec key_eq_dec k0 k); congruence.
      * exact IH.
Qed.

Lemma dict_set_length (d : list (Key * Key * V)) (k : Key * Key) (v : V) :
  (length (dset d k v) <= S (length d))%nat.
Proof.
  induction d as [| [k0 v0] d IH]; cbn; [lia |].
  destruct (pair_eq_dec key_eq_dec k k0); cbn; lia.
Qed.

Lemma fold_set_length (ws d : list (Key * Key * V)) :
  (length (fold_left dset_e ws d) <= length d + length ws)%nat.
Proof.
  revert d. induction ws as [| [k v] ws IH]; intros d; cbn; [lia |].
  specialize (IH (dset_e d (k, v))).
  pose proof (dict_set_length d k v). unfold set_entry in *. cbn in *. lia.
Qed.

Lemma fold_set_other (ws d : list (Key * Key * V)) (k : Key * Key) :
  ~ In k (map fst ws) -> dget (fold_left dset_e ws d) k = dget d k.
Proof.
  revert d. induction ws as [| [k0 v0] ws IH]; intros d Hnot;
    [reflexivity |].
  cbn in Hnot |- *. rewrite IH by tauto.
  unfold set_entry. cbn. rewrite dict_get_set.
  destruct (pair_eq_dec key_eq_dec k k0) as [-> | _]; [tauto | reflexivity].
Qed.

(** A key assigned one value only ends up with that value. *)
Lemma fold_set_value (ws d : list (Key * Key * V)) (k : Key * Key) (v : V) :
  In (k, v) ws -> (forall v', In (k, v') ws -> v' = v) ->
  dget (fold_left dset_e ws d) k = Some v.
Proof.
  revert d. induction ws as [| [k0 v0] ws IH]; intros d Hin Hsame;
    [contradiction |].
  cbn [fold_left].
  destruct (in_dec (pair_eq_dec key_eq_dec) k (map fst ws)) as [Hlater | Hnot].
  - apply in_map_iff in Hlater as ([k1 v1] & Hk & Hin1). cbn in Hk. subst k1.
    apply IH.
    + rewrite <- (Hsame v1) by (right; exact Hin1). exact Hin1.
    + intros v' Hv'. apply Hsame. now right.
  - rewrite fold_set_other by assumption.
    destruct Hin as [Heq | Hin].
    + injection Heq as -> ->. unfold set_entry. cbn.
      rewrite dict_get_set.
      destruct (pair_eq_dec key_eq_dec k k); [reflexivity | congruence].
    + exfalso. apply Hnot. apply in_map_iff. now exists (k, v).
Qed.

Lemma fold_set_defined (ws d : list (Key * Key * V)) (k : Key * Key) :
  dget (fold_left dset_e ws d) k <> None
  <-> In k (map fst ws) \/ dget d k <> None.
Proof.
  revert d. induction ws as [| [k0 v0] ws IH]; intros d; cbn [fold_left].
  - cbn. tauto.
  - rewrite IH. unfold set_entry. cbn. rewrite dict_get_set.
    destruct (pair_eq_dec key_eq_dec k k0) as [-> | Hne].
    + split; [tauto | intros _; right; discriminate].
    + split; intros [Hin | Hd]; try tauto.
      destruct Hin as [Heq | Hin]; [congruence | tauto].
Qed.

(** The two loops make the assignments of [cov_entries] in order. *)
Lemma inner_loop_entries (term1 : Term) (ts : list Term)
    (d : list (Key * Key * V)) :
  for_each ts
    (fun term2 cov_dict =>
       if commute term1 term2 then
         dset cov_dict (binary_tuple term1, binary_tuple term2)
           (cov term1 term2)
       else cov_dict)
    d
  = fold_left dset_e (row_of term1 ts) d.
Proof.
  revert d. induction ts as [| t ts IH]; intros d; [reflexivity |].
  cbn [for_each]. rewrite IH. unfold row_entries. cbn [filter].
  now destruct (commute term1 t).
Qed.

Lemma skipn_tail {X : Type} (n : nat) (l l' : list X) (x : X) :
  skipn n l = x :: l' -> skipn (S n) l = l'.
Proof.
  revert l. induction n as [| n IH]; intros [| y l] Hs; cbn in *;
    try discriminate.
  - now injection Hs as _ ->.
  - destruct l as [| z l]; [destruct n; discriminate |].
    exact (IH (z :: l) Hs).
Qed.

Lemma outer_loop_entries (terms : list Term) :
  forall (l : list Term) (n : nat) (d : list (Key * Key * V)),
    skipn n terms = l ->
    for_each (enumerate_from n l)
      (fun '(idx, term1) cov_dict =>
         for_each (skipn idx terms)
           (fun term2 cov_dict =>
              if commute term1 term2 then
                dset cov_dict (binary_tuple term1, binary_tuple term2)
                  (cov term1 term2)
              else cov_dict)
           cov_dict)
      d
    = fold_left dset_e (all_entries l) d.
Proof.
  induction l as [| t l IH]; intros n d Hs; [reflexivity |].
  cbn [enumerate_from for_each cov_entries].
  rewrite Hs, inner_loop_entries, fold_left_app.
  apply IH. exact (skipn_tail n terms l t Hs).
Qed.

Lemma prepare_cov_dict_entries (terms : list Term) :
  the_dict terms = fold_left dset_e (all_entries terms) [].
Proof. unfold prepare_cov_dict. now apply outer_loop_entries. Qed.

Lemma in_row_entries (term1 : Term) (ts : list Term) (k : Key * Key) (v : V) :
  In (k, v) (row_of term1 ts)
  <-> exists term2, In term2 ts /\ commute term1 term2 = true /\
                    k = (binary_tuple term1, binary_tuple term2) /\
                    v = cov term1 term2.
Proof.
  unfold row_entries. rewrite in_map_iff. split.
  - intros (t2 & Heq & Hin). apply filter_In in Hin as [Hin Hc].
    injection Heq as <- <-. now exists t2.
  - intros (t2 & Hin & Hc & -> & ->). exists t2. split; [reflexivity |].
    now apply filter_In.
Qed.

(** The assignments, by the positions of the two terms. *)
Lemma in_cov_entries (ts : list Term) (k : Key * Key) (v : V) :
  In (k, v) (all_entries ts)
  <-> exists i j term1 term2,
        (i <= j)%nat /\ nth_error ts i = Some term1 /\
        nth_error ts j = Some term2 /\ commute term1 term2 = true /\
        k = (binary_tuple term1, binary_tuple term2) /\
        v = cov term1 term2.
Proof.
  induction ts as [| t ts IH].
  - cbn. split; [contradiction |].
    intros (i & j & t1 & t2 & _ & Hi & _). destruct i; discriminate.
  - cbn [cov_entries]. rewrite in_app_iff, in_row_entries, IH. split.
    + intros [(t2 & Hin & Hc & Hk & Hv)
             | (i & j & t1 & t2 & Hij & Hi & Hj & Hrest)].
      * apply In_nth_error in Hin as [j Hj].
        exists 0%nat, j, t, t2. repeat split; try assumption. lia.
      * exists (S i), (S j), t1, t2. repeat split; try assumption;
          try tauto. lia.
    + intros (i & j & t1 & t2 & Hij & Hi & Hj & Hrest).
      destruct i as [| i].
      * cbn in Hi. injection Hi as ->. left. exists t2.
        split; [exact (nth_error_In _ _ Hj) | tauto].
      * destruct j as [| j]; [lia |]. right.
        exists i, j, t1, t2. repeat split; try tauto. lia.
Qed.

Lemma cov_entries_length (ts : list Term) :
  (2 * length (all_entries ts) <= length ts * (length ts + 1))%nat.
Proof.
  induction ts as [| t ts IH]; [cbn; lia |].
  cbn [cov_entries]. rewrite length_app. unfold row_entries.
  rewrite length_map.
  pose proof (filter_length_le (commute t) (t :: ts)) as Hrow.
  cbn [length] in *. nia.
Qed.

Lemma distinct_keys_position (ts : list Term) (i j : nat) (t t' : Term) :
  NoDup (map binary_tuple ts) ->
  nth_error ts i = Some t -> nth_error ts j = Some t' ->
  binary_tuple t = binary_tuple t' -> i = j.
Proof.
  intros Hnd Hi Hj Hkey.
  apply (proj1 (NoDup_nth_error (map binary_tuple ts)) Hnd).
  - rewrite length_map. apply nth_error_Some. rewrite Hi. discriminate.
  - rewrite !nth_error_map, Hi, Hj. cbn. now rewrite Hkey.
Qed.

Lemma cov_dict_defined (terms : list Term) (k1 k2 : Key) :
  dget (the_dict terms) (k1, k2) <> None
  <-> exists i j term1 term2,
        (i <= j)%nat /\ nth_error terms i = Some term1 /\
        nth_error terms j = Some term2 /\ commute term1 term2 = true /\
        binary_tuple term1 = k1 /\ binary_tuple term2 = k2.
Proof.
  rewrite prepare_cov_dict_entries, fold_set_defined. cbn [dict_get].
  rewrite in_map_iff. split.
  - intros [([k v] & Hk & Hin) | Hnone]; [| congruence].
    cbn in Hk. subst k. apply in_cov_entries in Hin
      as (i & j & t1 & t2 & Hij & Hi & Hj & Hc & Hk & _).
    injection Hk as -> ->. now exists i, j, t1, t2.
  - intros (i & j & t1 & t2 & Hij & Hi & Hj & Hc & <- & <-). left.
    exists ((binary_tuple t1, binary_tuple t2), cov t1 t2).
    split; [reflexivity |]. apply in_cov_entries. now exists i, j, t1, t2.
Qed.

(** X12. [prepare_cov_dict] has an entry under [(k1, k2)] exactly when
    [k1] and [k2] are the [binary_tuple]s of two commuting terms, the first
    at or before the second in the list of terms; so it has at most
    [n (n + 1) / 2] entries for [n] terms. *)
Theorem cov_dict_holds_commuting_pairs (terms : list Term) :
  (forall k1 k2 : Key,
     dict_get key_eq_dec
       (prepare_cov_dict key_eq_dec binary_tuple commute cov terms) (k1, k2)
     <> None
     <-> exists i j term1 term2,
           (i <= j)%nat /\ nth_error terms i = Some term1 /\
           nth_error terms j = Some term2 /\ commute term1 term2 = true /\
           binary_tuple term1 = k1 /\ binary_tuple term2 = k2) /\
  (2 * length (prepare_cov_dict key_eq_dec binary_tuple commute cov terms)
   <= length terms * (length terms + 1))%nat.
Proof.
  split; [intros k1 k2; apply cov_dict_defined |].
  rewrite prepare_cov_dict_entries.
  pose proof (fold_set_length (all_entries terms) []) as Hlen.
  pose proof (cov_entries_length terms) as Hent. cbn [length] in Hlen. lia.
Qed.

(** X13. When the terms have distinct [binary_tuple]s, the dictionary maps
    the pair of a term and a commuting term at or after it to their
    covariance, has nothing for a pair that does not commute, and has
    nothing for a pair given with the later term first: a covariance is
    stored once, under the order of the term list. *)
Theorem cov_dict_lookup (terms : list Term) (i j : nat) (term1 term2 : Term) :
  NoDup (map binary_tuple terms) ->
  nth_error terms i = Some term1 -> nth_error terms j = Some term2 ->
  ((i <= j)%nat -> commute term1 term2 = true ->
   dict_get key_eq_dec
     (prepare_cov_dict key_eq_dec binary_tuple commute cov terms)
     (binary_tuple term1, binary_tuple term2)
   = Some (cov term1 term2)) /\
  (commute term1 term2 = false ->
   dict_get key_eq_dec
     (prepare_cov_dict key_eq_dec binary_tuple commute cov terms)
     (binary_tuple term1, binary_tuple term2) = None) /\
  ((j < i)%nat ->
   dict_get key_eq_dec
     (prepare_cov_dict key_eq_dec binary_tuple commute cov terms)
     (binary_tuple term1, binary_tuple term2) = None).
Proof.
  intros Hnd Hi Hj.
  assert (Hsame : forall i' j' t1 t2,
            nth_error terms i' = Some t1 -> nth_error terms j' = Some t2 ->
            binary_tuple t1 = binary_tuple term1 ->
            binary_tuple t2 = binary_tuple term2 ->
            i' = i /\ j' = j /\ t1 = term1 /\ t2 = term2).
  { intros i' j' t1 t2 Hi' Hj' Hk1 Hk2.
    pose proof (distinct_keys_position terms i' i t1 term1
                  Hnd Hi' Hi Hk1) as ->.
    pose proof (distinct_keys_position terms j' j t2 term2
                  Hnd Hj' Hj Hk2) as ->.
    rewrite Hi in Hi'. rewrite Hj in Hj'.
    injection Hi' as ->. injection Hj' as ->. auto. }
  split; [| split].
  - intros Hij Hc. rewrite prepare_cov_dict_entries.
    apply fold_set_value.
    + apply in_cov_entries. now exists i, j, term1, term2.
    + intros v' Hin. apply in_cov_entries in Hin
        as (i' & j' & t1 & t2 & _ & Hi' & Hj' & _ & Hk & ->).
      injection Hk as Hk1 Hk2.
      destruct (Hsame i' j' t1 t2 Hi' Hj') as (_ & _ & -> & ->); auto.
  - intros Hc.
    destruct (dget (the_dict terms) (binary_tuple term1, binary_tuple term2))
      as [v |] eqn:E; [exfalso | reflexivity].
    assert (Hdef : dget (the_dict terms)
                     (binary_tuple term1, binary_tuple term2) <> None)
      by (rewrite E; discriminate).
    apply cov_dict_defined in Hdef
      as (i' & j' & t1 & t2 & _ & Hi' & Hj' & Hc' & Hk1 & Hk2).
    destruct (Hsame i' j' t1 t2 Hi' Hj' Hk1 Hk2) as (_ & _ & -> & ->).
    congruence.
  - intros Hlt.
    destruct (dget (the_dict terms) (binary_tuple term1, binary_tuple term2))
      as [v |] eqn:E; [exfalso | reflexivity].
    assert (Hdef : dget (the_dict terms)
                     (binary_tuple term1, binary_tuple term2) <> None)
      by (rewrite E; discriminate).
    apply cov_dict_defined in Hdef
      as (i' & j' & t1 & t2 & Hle & Hi' & Hj' & _ & Hk1 & Hk2).
    destruct (Hsame i' j' t1 t2 Hi' Hj' Hk1 Hk2) as (-> & -> & _). lia.
Qed.

End CovDictFacts.

(** A run on three terms named by numbers, two of which commute when their
    sum is even. *)
Example cov_dict_run :
  prepare_cov_dict Nat.eq_dec (fun t => t) (fun a b => Nat.even (a + b))
    Nat.mul [1; 2; 3]%nat
  = [((1, 1), 1); ((1, 3), 3); ((2, 2), 4); ((3, 3), 9)]%nat.
Proof. reflexivity. Qed.

Lemma NoDup_1_2_3 : NoDup (map (fun t : nat => t) [1; 2; 3]%nat).
Proof.
  cbn. repeat constructor; cbn; intros Hin;
    repeat (destruct Hin as [Hin | Hin]; [discriminate |]); exact Hin.
Defined.

Lemma cov_dict_lookup_witness :
  NoDup (map (fun t : nat => t) [1; 2; 3]%nat) /\
  dict_get Nat.eq_dec
    (prepare_cov_dict Nat.eq_dec (fun t => t)
       (fun a b => Nat.even (a + b)) Nat.mul [1; 2; 3]%nat)
    (1, 3)%nat
  = Some 3%nat.
Proof.
  split; [exact NoDup_1_2_3 |].
  exact (proj1 (cov_dict_lookup Nat.eq_dec (fun t => t)
                  (fun a b => Nat.even (a + b)) Nat.mul
                  [1; 2; 3]%nat 0 2 1%nat 3%nat
                  NoDup_1_2_3 eq_refl eq_refl)
           ltac:(lia) eq_refl).
Defined.
